(** * A contact book with birthdays: the validated fields, the record, the
    address book and the command handlers of [2_task.py], embedded in Rocq.

    Python values are modelled as follows.
    - [str] is a sequence of Unicode code points ([list N]); literals are
      written [py "..."], which decodes the UTF-8 bytes of the literal.
    - An exception is a value of [exn]; code that may raise returns
      [exn + A], and a method that may raise after it has changed [self]
      is a state transformer that hands the state back in both cases.
    - [datetime.date] is a record of three integers with the arithmetic of
      the proleptic Gregorian calendar.
    - What the interpreter brings along and the repository does not contain
      (the Unicode character database, the C library's [strftime] for years
      below 1000) is gathered in the class [Runtime]. *)

From Stdlib Require Import String Ascii ZArith Lia.
From stdpp Require Import base decidable option list numbers.

#[local] Open Scope N_scope.

(** ** Strings *)

Abbreviation str := (list N).

(** One step of UTF-8 decoding per leading byte; a truncated sequence ends
    the text (the literals of this file are all well formed). *)
Fixpoint utf8_decode (bs : list N) : str :=
  match bs with
  | [] => []
  | b0 :: r0 =>
      if b0 <? 128 then b0 :: utf8_decode r0
      else match r0 with
           | [] => []
           | b1 :: r1 =>
               if b0 <? 224 then (b0 mod 32 * 64 + b1 mod 64) :: utf8_decode r1
               else match r1 with
                    | [] => []
                    | b2 :: r2 =>
                        if b0 <? 240
                        then (b0 mod 16 * 4096 + b1 mod 64 * 64 + b2 mod 64)
                               :: utf8_decode r2
                        else match r2 with
                             | [] => []
                             | b3 :: r3 =>
                                 (b0 mod 8 * 262144 + b1 mod 64 * 4096
                                  + b2 mod 64 * 64 + b3 mod 64)
                                   :: utf8_decode r3
                             end
                    end
           end
  end.

Definition py (s : String.string) : str :=
  utf8_decode (map Ascii.N_of_ascii (String.list_ascii_of_string s)).
Arguments py : simpl never.

(** [a + b] on strings, and [sep.join(xs)]. *)
Definition join (sep : str) (xs : list str) : str :=
  match xs with
  | [] => []
  | x :: rest => x ++ concat (map (fun y => sep ++ y) rest)
  end.

(** ** What the interpreter supplies *)

(** [to_decimal] and [to_digit] are CPython's [Py_UNICODE_TODECIMAL] and
    [Py_UNICODE_TODIGIT] on the code points from 128 on: the value of a
    character of category Nd, respectively of a character with a digit
    value (the decimals and, among others, the superscript digits).
    [strftime_Y_short] is what the platform's [strftime] prints for [%Y]
    when the year is below 1000 (zero padded to four places on some
    platforms, unpadded on others). *)
Class Runtime := {
  to_decimal : N → option N;
  to_digit : N → option N;
  strftime_Y_short : Z → str
}.

Definition ascii_digit (c : N) : bool := (48 <=? c) && (c <=? 57).

(** The decimal value of a character, [None] when it has none. *)
Definition decimal_value {rt : Runtime} (c : N) : option N :=
  if c <? 128 then (if ascii_digit c then Some (c - 48) else None)
  else to_decimal c.

(** [Py_UNICODE_ISDIGIT]. *)
Definition char_isdigit {rt : Runtime} (c : N) : bool :=
  if c <? 128 then ascii_digit c else bool_decide (is_Some (to_digit c)).

(** [str.isdigit()]: every character is a digit and there is at least one. *)
Definition isdigit {rt : Runtime} (s : str) : bool :=
  forallb char_isdigit s && negb (bool_decide (s = [])).

(** [len(s)]. *)
Definition len {A} (s : list A) : Z := Z.of_nat (length s).

(** ** Exceptions and results *)

Inductive exn :=
| ValueError (msg : str)
| NumberVerificationError (msg : str)
| IndexError (msg : str)
| TypeError (msg : str)
| KeyError (msg : str).

(** [str(e)]: [NumberVerificationError.__init__] stores its message and
    passes it to [Exception.__init__], so all five print their message
    ([KeyError] prints the [repr] of its key, which [msg] stands for). *)
Definition str_of_exn (e : exn) : str :=
  match e with
  | ValueError m | NumberVerificationError m | IndexError m
  | TypeError m | KeyError m => m
  end.

Definition result (A : Type) : Type := exn + A.
Definition ok {A} (a : A) : result A := inr a.
Definition raise {A} (e : exn) : result A := inl e.

(** ** Fields *)

Module Name.
Record t := mk { value : str }.

(** [if not value: raise ValueError(...)]; a string is false when empty. *)
Definition __init__ (value : str) : result t :=
  if bool_decide (value = []) then raise (ValueError (py "Name cannot be empty"))
  else ok (mk value).
End Name.

Module Phone.
Record t := mk { value : str }.

Definition __init__ {rt : Runtime} (value : str) : result t :=
  if negb (isdigit value) || negb (len value =? 10)%Z
  then raise (NumberVerificationError
                (py "Phone number must contain exactly 10 digits"))
  else ok (mk value).
End Phone.

(** ** [datetime.date] *)

#[local] Open Scope Z_scope.

(** Decimal rendering of an integer, as [%d] and [str(int)] print it. *)
Fixpoint str_of_uint (u : Decimal.uint) : str :=
  match u with
  | Decimal.Nil => []
  | Decimal.D0 r => 48%N :: str_of_uint r
  | Decimal.D1 r => 49%N :: str_of_uint r
  | Decimal.D2 r => 50%N :: str_of_uint r
  | Decimal.D3 r => 51%N :: str_of_uint r
  | Decimal.D4 r => 52%N :: str_of_uint r
  | Decimal.D5 r => 53%N :: str_of_uint r
  | Decimal.D6 r => 54%N :: str_of_uint r
  | Decimal.D7 r => 55%N :: str_of_uint r
  | Decimal.D8 r => 56%N :: str_of_uint r
  | Decimal.D9 r => 57%N :: str_of_uint r
  end.

Definition str_of_int (z : Z) : str :=
  match z with
  | Z0 => py "0"
  | Zpos p => str_of_uint (Pos.to_uint p)
  | Zneg p => 45%N :: str_of_uint (Pos.to_uint p)
  end.

(** The digit character of a value below ten. *)
Definition digit_char (z : Z) : N := Z.to_N (48 + z).

(** [%02d] and [%04d] on a value that fits the width. *)
Definition pad2 (z : Z) : str := [digit_char (z / 10); digit_char (z mod 10)].
Definition pad4 (z : Z) : str :=
  [digit_char (z / 1000); digit_char (z / 100 mod 10);
   digit_char (z / 10 mod 10); digit_char (z mod 10)].

Module date.
Record t := mk { year : Z; month : Z; day : Z }.

Definition MINYEAR : Z := 1.
Definition MAXYEAR : Z := 9999.

Definition _is_leap (year : Z) : bool :=
  (year mod 4 =? 0) && (negb (year mod 100 =? 0) || (year mod 400 =? 0)).

(** The table [_DAYS_IN_MONTH], indexed from 1. *)
Definition _DAYS_IN_MONTH (month : Z) : Z :=
  match month with
  | 1 => 31 | 2 => 28 | 3 => 31 | 4 => 30 | 5 => 31 | 6 => 30
  | 7 => 31 | 8 => 31 | 9 => 30 | 10 => 31 | 11 => 30 | 12 => 31
  | _ => -1
  end.

(** The table [_DAYS_BEFORE_MONTH]: the days of a common year that
    precede the first of the month. *)
Definition _DAYS_BEFORE_MONTH (month : Z) : Z :=
  match month with
  | 1 => 0 | 2 => 31 | 3 => 59 | 4 => 90 | 5 => 120 | 6 => 151
  | 7 => 181 | 8 => 212 | 9 => 243 | 10 => 273 | 11 => 304 | 12 => 334
  | _ => -1
  end.

Definition _days_before_year (year : Z) : Z :=
  let y := year - 1 in y * 365 + y / 4 - y / 100 + y / 400.

Definition _days_in_month (year month : Z) : Z :=
  if (month =? 2) && _is_leap year then 29 else _DAYS_IN_MONTH month.

Definition _days_before_month (year month : Z) : Z :=
  _DAYS_BEFORE_MONTH month + (if (2 <? month) && _is_leap year then 1 else 0).

Definition _ymd2ord (year month day : Z) : Z :=
  _days_before_year year + _days_before_month year month + day.

(** The constructor [date(year, month, day)] with its range checks. *)
Definition new (year month day : Z) : result t :=
  if negb ((MINYEAR <=? year) && (year <=? MAXYEAR))
  then raise (ValueError (py "year " ++ str_of_int year ++ py " is out of range"))
  else if negb ((1 <=? month) && (month <=? 12))
  then raise (ValueError (py "month must be in 1..12"))
  else if negb ((1 <=? day) && (day <=? _days_in_month year month))
  then raise (ValueError (py "day is out of range for month"))
  else ok (mk year month day).

(** [d.replace(year=y)] builds a new date from the changed fields, so it
    raises where the constructor does. *)
Definition replace_year (d : t) (y : Z) : result t := new y (month d) (day d).

Definition toordinal (d : t) : Z := _ymd2ord (year d) (month d) (day d).

(** [(a - b).days]. *)
Definition sub_days (a b : t) : Z := toordinal a - toordinal b.

(** [d.weekday()]: Monday is 0. *)
Definition weekday (d : t) : Z := (toordinal d + 6) mod 7.

(** The class invariant: what [new] checked. *)
Definition valid (d : t) : Prop :=
  MINYEAR <= year d <= MAXYEAR ∧ 1 <= month d <= 12
  ∧ 1 <= day d <= _days_in_month (year d) (month d).

(** [%A] in the C locale, which the program never changes. *)
Definition day_name (wd : Z) : str :=
  match wd with
  | 0 => py "Monday" | 1 => py "Tuesday" | 2 => py "Wednesday"
  | 3 => py "Thursday" | 4 => py "Friday" | 5 => py "Saturday"
  | _ => py "Sunday"
  end.

Definition strftime_A (d : t) : str := day_name (weekday d).

(** [%Y]: four digits from year 1000 on, the platform's choice below. *)
Definition strftime_Y {rt : Runtime} (y : Z) : str :=
  if y <? 1000 then strftime_Y_short y else pad4 y.

(** [d.strftime('%d.%m.%Y')]. *)
Definition strftime_dmY {rt : Runtime} (d : t) : str :=
  pad2 (day d) ++ py "." ++ pad2 (month d) ++ py "." ++ strftime_Y (year d).
End date.

Module datetime.
(** [datetime.today()] yields a date and a time of day; only [date()] is
    used by the program. *)
Record t := mk { date_part : date.t; hour : Z; minute : Z;
                 second : Z; microsecond : Z }.
Definition date (dt : t) : date.t := date_part dt.
End datetime.

(** ** [datetime.strptime(value, "%d.%m.%Y")]

    [_strptime] compiles the format to the regular expression
    [(?P<d>3[0-1]|[1-2]\d|0[1-9]|[1-9]| [1-9])\.(?P<m>1[0-2]|0[1-9]|[1-9])\.(?P<Y>\d\d\d\d)],
    matches it at the start of the text, refuses text that is left over,
    converts the three groups with [int] and builds the date. A group is
    modelled by the list of its possible matches (captured text and rest) in
    the order in which the matcher tries the alternatives; the first
    complete match is the one the matcher returns. *)
Module strptime.
Section Groups.
Context {rt : Runtime}.

Definition between (lo hi : N) (c : N) : bool := ((lo <=? c) && (c <=? hi))%N.
Definition exactly (x : N) (c : N) : bool := (c =? x)%N.
(** [\d] on text: the characters that have a decimal value. *)
Definition re_digit (c : N) : bool := bool_decide (is_Some (decimal_value c)).

Definition take1 (p : N → bool) (s : str) : list (str * str) :=
  match s with
  | c :: r => if p c then [([c], r)] else []
  | _ => []
  end.

Definition take2 (p1 p2 : N → bool) (s : str) : list (str * str) :=
  match s with
  | c1 :: c2 :: r => if p1 c1 && p2 c2 then [([c1; c2], r)] else []
  | _ => []
  end.

Definition re_d (s : str) : list (str * str) :=
  take2 (exactly 51) (between 48 49) s
  ++ take2 (between 49 50) re_digit s
  ++ take2 (exactly 48) (between 49 57) s
  ++ take1 (between 49 57) s
  ++ take2 (exactly 32) (between 49 57) s.

Definition re_m (s : str) : list (str * str) :=
  take2 (exactly 49) (between 48 50) s
  ++ take2 (exactly 48) (between 49 57) s
  ++ take1 (between 49 57) s.

Definition re_Y (s : str) : list (str * str) :=
  match s with
  | a :: b :: c :: d :: r =>
      if re_digit a && re_digit b && re_digit c && re_digit d
      then [([a; b; c; d], r)] else []
  | _ => []
  end.

(** The escaped dot of the format. *)
Definition re_dot (s : str) : list str :=
  match s with
  | c :: r => if exactly 46 c then [r] else []
  | [] => []
  end.

(** All complete matches, the matcher's choice first: the groups [d],
    [m], [Y] and the text after the match. *)
Definition matches (s : str) : list (str * str * str * str) :=
  '(d, r1) ← re_d s;
  r2 ← re_dot r1;
  '(m, r3) ← re_m r2;
  r4 ← re_dot r3;
  '(y, r5) ← re_Y r4;
  [(d, m, y, r5)].

(** [int(text)] on what a group can hold: blanks around the number are
    dropped, the number is a non-empty run of decimal characters. Signs
    and underscores, which no group contains, are not modelled and are
    refused. *)
Definition strip_blank (s : str) : str :=
  match s with
  | 32%N :: r => r
  | _ => s
  end.

Fixpoint digits_value (acc : Z) (s : str) : option Z :=
  match s with
  | [] => Some acc
  | c :: r =>
      match decimal_value c with
      | Some v => digits_value (10 * acc + Z.of_N v) r
      | None => None
      end
  end.

Definition int (s : str) : result Z :=
  match strip_blank s with
  | [] => raise (ValueError (py "invalid literal for int() with base 10"))
  | t => match digits_value 0 t with
         | Some z => ok z
         | None => raise (ValueError (py "invalid literal for int() with base 10"))
         end
  end.

(** The two messages of [_strptime] quote the text with [%r] and [%s];
    the quoting is not modelled, the caller replaces the message. *)
Definition parse_dmY (value : str) : result date.t :=
  match head (matches value) with
  | None =>
      raise (ValueError (py "time data " ++ value
                         ++ py " does not match format '%d.%m.%Y'"))
  | Some (d, m, y, rest) =>
      let found_end := len value - len rest in
      if negb (len value =? found_end)
      then raise (ValueError (py "unconverted data remains: " ++ rest))
      else
        match int d with
        | inl e => inl e
        | inr day =>
            match int m with
            | inl e => inl e
            | inr month =>
                match int y with
                | inl e => inl e
                | inr year => date.new year month day
                end
            end
        end
  end.
End Groups.
End strptime.

Module Birthday.
Record t := mk { value : date.t }.

(** [try: ... strptime(...).date() except ValueError: raise ValueError(...)]:
    every [ValueError] of the parser is replaced, anything else passes. *)
Definition __init__ {rt : Runtime} (value : str) : result t :=
  match strptime.parse_dmY value with
  | inr d => ok (mk d)
  | inl (ValueError _) =>
      raise (ValueError (py "Invalid date format. Use DD.MM.YYYY"))
  | inl e => inl e
  end.
End Birthday.

(** ** Methods that change [self]

    A method is a function from the object's state to a result and the
    state it leaves behind; an exception keeps the state reached when it was
    raised. *)

Definition M (S A : Type) : Type := S → result A * S.

Definition ret {S A} (a : A) : M S A := λ s, (ok a, s).
Definition throw {S A} (e : exn) : M S A := λ s, (raise e, s).
Definition lift {S A} (r : result A) : M S A := λ s, (r, s).
Definition get {S} : M S S := λ s, (ok s, s).
Definition modify {S} (f : S → S) : M S unit := λ s, (ok tt, f s).
Definition bind {S A B} (m : M S A) (k : A → M S B) : M S B :=
  λ s, match m s with
       | (inr a, s') => k a s'
       | (inl e, s') => (inl e, s')
       end.

Notation "x <- m ;; k" := (bind m (λ x, k))
  (at level 100, m at next level, right associativity).
Notation "m ;;; k" := (bind m (λ _, k))
  (at level 100, right associativity).

(** ** Record *)

Module Record.
Record t := mk {
  name : Name.t;
  phones : list Phone.t;
  birthday : option Birthday.t
}.

Definition set_phones (ps : list Phone.t) (self : t) : t :=
  mk (name self) ps (birthday self).
Definition set_birthday (b : option Birthday.t) (self : t) : t :=
  mk (name self) (phones self) b.

Definition __init__ (name : str) : result t :=
  match Name.__init__ name with
  | inl e => inl e
  | inr n => ok (mk n [] None)
  end.

Definition add_phone {rt : Runtime} (phone : str) : M t unit :=
  p <- lift (Phone.__init__ phone) ;;
  modify (λ self, set_phones (phones self ++ [p]) self).

Definition remove_phone (phone : str) : M t unit :=
  modify (λ self,
    set_phones (filter (λ p, Phone.value p ≠ phone) (phones self)) self).

(** The loop of [edit_phone] over the phones still to visit; [i] is the
    position of the first of them, and the assignment to [p.value]
    updates the object at that position. *)
Fixpoint edit_phone_from {rt : Runtime} (i : nat) (todo : list Phone.t)
    (old_phone new_phone : str) : M t unit :=
  match todo with
  | [] => throw (ValueError (py "Old phone number not found"))
  | p :: rest =>
      if bool_decide (Phone.value p = old_phone)
      then
        q <- lift (Phone.__init__ new_phone) ;;
        modify (λ self,
          set_phones (<[i := Phone.mk (Phone.value q)]> (phones self)) self)
      else edit_phone_from (S i) rest old_phone new_phone
  end.

Definition edit_phone {rt : Runtime} (old_phone new_phone : str) : M t unit :=
  ps <- (λ self, (ok (phones self), self)) ;;
  edit_phone_from 0 ps old_phone new_phone.

Fixpoint find_phone_in (ps : list Phone.t) (phone : str) : option Phone.t :=
  match ps with
  | [] => None
  | p :: rest =>
      if bool_decide (Phone.value p = phone) then Some p
      else find_phone_in rest phone
  end.

Definition find_phone (self : t) (phone : str) : option Phone.t :=
  find_phone_in (phones self) phone.

Definition add_birthday {rt : Runtime} (birthday : str) : M t unit :=
  b <- lift (Birthday.__init__ birthday) ;;
  modify (set_birthday (Some b)).
End Record.

(** ** The dictionary behind [UserDict]

    A Python [dict] keeps its keys in insertion order; assigning to a key
    that is present keeps its place, deleting a key closes the gap. *)
Module dict.
Section Dict.
Context {V : Type}.

Definition t := list (str * V).

Fixpoint get (d : t) (k : str) : option V :=
  match d with
  | [] => None
  | (k', v) :: rest => if bool_decide (k' = k) then Some v else get rest k
  end.

Fixpoint set (k : str) (v : V) (d : t) : t :=
  match d with
  | [] => [(k, v)]
  | (k', v') :: rest =>
      if bool_decide (k' = k) then (k', v) :: rest
      else (k', v') :: set k v rest
  end.

Fixpoint del (k : str) (d : t) : t :=
  match d with
  | [] => []
  | (k', v') :: rest =>
      if bool_decide (k' = k) then rest else (k', v') :: del k rest
  end.

Definition contains (d : t) (k : str) : bool := bool_decide (is_Some (get d k)).
Definition keys (d : t) : list str := fst <$> d.
Definition values (d : t) : list V := snd <$> d.
End Dict.
Arguments t : clear implicits.
End dict.

(** ** AddressBook *)

Module AddressBook.
Definition t := dict.t Record.t.

(** [AddressBook()]. *)
Definition empty : t := [].

Definition add_record (record : Record.t) : M t unit :=
  modify (dict.set (Name.value (Record.name record)) record).

Definition find (name : str) : M t (option Record.t) :=
  λ self, (ok (dict.get self name), self).

Definition delete (name : str) : M t unit :=
  λ self, if dict.contains self name then (ok tt, dict.del name self)
          else (ok tt, self).

Definition values (self : t) : list Record.t := dict.values self.

(** A method call on a record that the book holds under [key]: the book
    refers to the object, so it sees the state the call leaves behind,
    also when the call raises. *)
Definition on_record {A} (key : str) (record : Record.t)
    (method : M Record.t A) : M t A :=
  λ self, let '(res, record') := method record in
          (res, dict.set key record' self).
End AddressBook.

(** ** The command handlers *)

(** The decorator [input_error]: the result of the handler, or the text
    of the first [except] clause that fits what it raised. *)
Definition input_error {S} (func : M S str) : M S str :=
  λ s, match func s with
       | (inr text, s') => (ok text, s')
       | (inl (IndexError _), s') | (inl (TypeError _), s') =>
           (ok (py "Недостатньо аргументів або неправильний формат команди."), s')
       | (inl (ValueError m), s') => (ok (str_of_exn (ValueError m)), s')
       | (inl (NumberVerificationError m), s') =>
           (ok (str_of_exn (NumberVerificationError m)), s')
       | (inl (KeyError _), s') => (ok (py "Contact not found"), s')
       end.

(** [name, phone, *_ = args] on a list that is too short. *)
Definition unpack_error (n : nat) : exn :=
  ValueError (py "not enough values to unpack (expected at least 2, got "
              ++ str_of_int (Z.of_nat n) ++ py ")").

Definition add_contact_body {rt : Runtime} (args : list str) : M AddressBook.t str :=
  match args with
  | name :: phone :: _ =>
      found <- AddressBook.find name ;;
      state <-
        match found with
        | None =>
            record <- lift (Record.__init__ name) ;;
            AddressBook.add_record record ;;;
            ret (record, py "Contact added.")
        | Some record => ret (record, py "Contact updated.")
        end ;;
      let '(record, message) := state in
      (if bool_decide (phone ≠ [])
       then AddressBook.on_record name record (Record.add_phone phone)
       else ret tt) ;;;
      ret message
  | _ => throw (unpack_error (length args))
  end.

Definition add_contact {rt : Runtime} (args : list str) : M AddressBook.t str :=
  input_error (add_contact_body args).

(** One line of the answer of [birthdays]. *)
Definition birthday_line {rt : Runtime} (record : Record.t) (d : date.t) : str :=
  Name.value (Record.name record) ++ py ": " ++ date.strftime_A d
  ++ py " (" ++ date.strftime_dmY d ++ py ")".

(** The loop of [birthdays] over the records still to visit, with the list
    [upcoming] built so far. *)
Fixpoint birthdays_loop {rt : Runtime} (today : date.t) (records : list Record.t)
    (upcoming : list str) : result (list str) :=
  match records with
  | [] => ok upcoming
  | record :: rest =>
      match Record.birthday record with
      | Some b =>
          let bday := Birthday.value b in
          match date.replace_year bday (date.year today) with
          | inl e => inl e
          | inr this_year_birthday =>
              let delta_days := date.sub_days this_year_birthday today in
              match
                (if delta_days <? 0
                 then match date.replace_year bday (date.year today + 1) with
                      | inl e => inl e
                      | inr next => ok (next, date.sub_days next today)
                      end
                 else ok (this_year_birthday, delta_days))
              with
              | inl e => inl e
              | inr (this_year_birthday, delta_days) =>
                  if (0 <=? delta_days) && (delta_days <=? 7)
                  then birthdays_loop today rest
                         (upcoming ++ [birthday_line record this_year_birthday])
                  else birthdays_loop today rest upcoming
              end
          end
      | None => birthdays_loop today rest upcoming
      end
  end.

(** [clock] is what [datetime.today()] returns when the handler runs; the
    Python function has the parameters [args] and [book] only. *)
Definition birthdays_body {rt : Runtime} (clock : datetime.t) (args : list str)
    : M AddressBook.t str :=
  λ book,
    let today := datetime.date clock in
    match birthdays_loop today (AddressBook.values book) [] with
    | inl e => (inl e, book)
    | inr upcoming =>
        if bool_decide (upcoming = []) then (ok (py "No birthdays next week"), book)
        else (ok (join [10%N] upcoming), book)
    end.

Definition birthdays {rt : Runtime} (clock : datetime.t) (args : list str)
    : M AddressBook.t str :=
  input_error (birthdays_body clock args).

(** ** The other handlers and the rendering of a record *)

(** [name, old_phone, new_phone = args] and [name, bday = args] on a list
    of another length. *)
Definition unpack_exact_error (expected : Z) (n : nat) : exn :=
  if (Z.of_nat n <? expected)
  then ValueError (py "not enough values to unpack (expected "
                   ++ str_of_int expected ++ py ", got "
                   ++ str_of_int (Z.of_nat n) ++ py ")")
  else ValueError (py "too many values to unpack (expected "
                   ++ str_of_int expected ++ py ")").

(** [args[0]] on the empty list. *)
Definition index_error : exn := IndexError (py "list index out of range").

(** [', '.join(p.value for p in phones)] and the like. *)
Definition phone_values (phones : list Phone.t) : list str :=
  Phone.value <$> phones.

(** [Record.__str__]. *)
Definition Record_str {rt : Runtime} (self : Record.t) : str :=
  let birthday_str :=
    match Record.birthday self with
    | Some b => py ", birthday: " ++ date.strftime_dmY (Birthday.value b)
    | None => []
    end in
  py "Contact name: " ++ Name.value (Record.name self) ++ py ", phones: "
  ++ join (py "; ") (phone_values (Record.phones self)) ++ birthday_str.

Definition change_contact_body {rt : Runtime} (args : list str)
    : M AddressBook.t str :=
  match args with
  | [name; old_phone; new_phone] =>
      found <- AddressBook.find name ;;
      match found with
      | None => ret (py "Contact not found")
      | Some record =>
          AddressBook.on_record name record
            (Record.edit_phone old_phone new_phone) ;;;
          ret (py "Phone number updated.")
      end
  | _ => throw (unpack_exact_error 3 (length args))
  end.

Definition change_contact {rt : Runtime} (args : list str) : M AddressBook.t str :=
  input_error (change_contact_body args).

Definition show_phones_body (args : list str) : M AddressBook.t str :=
  match args with
  | name :: _ =>
      found <- AddressBook.find name ;;
      match found with
      | None => ret (py "Contact not found")
      | Some record =>
          ret (name ++ py ": "
               ++ join (py ", ") (phone_values (Record.phones record)))
      end
  | [] => throw index_error
  end.

Definition show_phones (args : list str) : M AddressBook.t str :=
  input_error (show_phones_body args).

(** [show_all] has no decorator and only reads the book. *)
Definition show_all {rt : Runtime} (book : AddressBook.t) : str :=
  if bool_decide (length book = 0%nat) then py "Empty address book"
  else join [10%N] (Record_str <$> AddressBook.values book).

Definition add_birthday_body {rt : Runtime} (args : list str)
    : M AddressBook.t str :=
  match args with
  | [name; bday] =>
      found <- AddressBook.find name ;;
      match found with
      | None => ret (py "Contact not found")
      | Some record =>
          AddressBook.on_record name record (Record.add_birthday bday) ;;;
          ret (py "Birthday is added")
      end
  | _ => throw (unpack_exact_error 2 (length args))
  end.

Definition add_birthday {rt : Runtime} (args : list str) : M AddressBook.t str :=
  input_error (add_birthday_body args).

Definition show_birthday_body {rt : Runtime} (args : list str)
    : M AddressBook.t str :=
  match args with
  | name :: _ =>
      found <- AddressBook.find name ;;
      match found with
      | None => ret (py "Контакт не знайдено.")
      | Some record =>
          match Record.birthday record with
          | Some b =>
              ret (name ++ py " has birthday on "
                   ++ date.strftime_dmY (Birthday.value b))
          | None => ret (py "No birthday")
          end
      end
  | [] => throw index_error
  end.

Definition show_birthday {rt : Runtime} (args : list str) : M AddressBook.t str :=
  input_error (show_birthday_body args).

(** ** Reading a command

    [str.isspace] on one character and [str.lower] come from the Unicode
    database as well; they are gathered in a class of their own. *)
Class Text := {
  isspace : N → bool;
  lower : str → str
}.

Fixpoint lstrip {tx : Text} (s : str) : str :=
  match s with
  | [] => []
  | c :: r => if isspace c then lstrip r else s
  end.

Definition rstrip {tx : Text} (s : str) : str := reverse (lstrip (reverse s)).

(** [s.strip()]. *)
Definition strip {tx : Text} (s : str) : str := lstrip (rstrip s).

(** [s.split()]: the maximal runs of characters that are not white space;
    [word] is the run read so far. *)
Fixpoint split_from {tx : Text} (word : str) (s : str) : list str :=
  match s with
  | [] => if bool_decide (word = []) then [] else [word]
  | c :: r =>
      if isspace c
      then (if bool_decide (word = []) then split_from [] r
            else word :: split_from [] r)
      else split_from (word ++ [c]) r
  end.

Definition split {tx : Text} (s : str) : list str := split_from [] s.

(** [parts[0]] raises [IndexError] when there is no part. *)
Definition parse_input {tx : Text} (user_input : str) : result (str * list str) :=
  match split (strip user_input) with
  | [] => raise index_error
  | first :: rest => ok (lower first, rest)
  end.

(** ** The command loop

    [main] is run on the lines that [input] will return, each with the
    reading of the clock at that moment. It yields what was written (the
    prompts of [input] and the lines of [print]), how the loop ended, and
    the book at that point. *)
Inductive event :=
| Prompt (text : str)
| Print (text : str).

Inductive ending :=
| Finished
| Uncaught (e : exn)
| EndOfInput.

Definition prompt : event := Prompt (py "Enter a command: ").

Fixpoint main_loop {rt : Runtime} {tx : Text} (inputs : list (str * datetime.t))
    (book : AddressBook.t) : list event * ending * AddressBook.t :=
  match inputs with
  | [] => ([prompt], EndOfInput, book)
  | (user_input, clock) :: later =>
      match parse_input user_input with
      | inl e => ([prompt], Uncaught e, book)
      | inr (command, args) =>
          let continue (answer : str * AddressBook.t) :=
            let '(events, stop, book') := main_loop later answer.2 in
            (prompt :: Print answer.1 :: events, stop, book') in
          let reply (handler : M AddressBook.t str) :=
            match handler book with
            | (inr text, book') => continue (text, book')
            | (inl e, book') => ([prompt], Uncaught e, book')
            end in
          if bool_decide (command = py "close") || bool_decide (command = py "exit")
          then ([prompt; Print (py "Good bye!")], Finished, book)
          else if bool_decide (command = py "hello")
          then continue (py "How can I help you?", book)
          else if bool_decide (command = py "add")
          then reply (add_contact args)
          else if bool_decide (command = py "change")
          then reply (change_contact args)
          else if bool_decide (command = py "phone")
          then reply (show_phones args)
          else if bool_decide (command = py "all")
          then continue (show_all book, book)
          else if bool_decide (command = py "add-birthday")
          then reply (add_birthday args)
          else if bool_decide (command = py "show-birthday")
          then reply (show_birthday args)
          else if bool_decide (command = py "birthdays")
          then reply (birthdays clock args)
          else continue (py "Invalid command.", book)
      end
  end.

Definition main {rt : Runtime} {tx : Text} (inputs : list (str * datetime.t))
    : list event * ending * AddressBook.t :=
  let '(events, stop, book) := main_loop inputs AddressBook.empty in
  (Print (py "Welcome to the assistant bot!") :: events, stop, book).

(** ** An interpreter for the examples

    An excerpt of the Unicode tables (the Arabic-Indic, Extended
    Arabic-Indic and Devanagari digits, which are decimals, and the
    superscripts one, two and three, which are digits only), and a C library
    that prints short years unpadded. The general theorems hold for every
    [Runtime]; the examples run on this one. *)
Definition excerpt_decimal (c : N) : option N :=
  (if (1632 <=? c) && (c <=? 1641) then Some (c - 1632)
   else if (1776 <=? c) && (c <=? 1785) then Some (c - 1776)
   else if (2406 <=? c) && (c <=? 2415) then Some (c - 2406)
   else None)%N.

Definition excerpt_digit (c : N) : option N :=
  (match excerpt_decimal c with
   | Some v => Some v
   | None => if c =? 185 then Some 1 else if c =? 178 then Some 2
             else if c =? 179 then Some 3 else None
   end)%N.

Definition excerpt_runtime : Runtime :=
  {| to_decimal := excerpt_decimal;
     to_digit := excerpt_digit;
     strftime_Y_short := str_of_int |}.

(** White space and lower case for the examples: the white space of ASCII
    and five more characters, and lower case for the Latin letters of ASCII
    and the Cyrillic capitals from U+0410 to U+042F. *)
Definition excerpt_isspace (c : N) : bool :=
  ((9 <=? c) && (c <=? 13) || (28 <=? c) && (c <=? 32) || (c =? 133) || (c =? 160)
   || (c =? 8232) || (c =? 8233) || (c =? 12288))%N.

Definition excerpt_lower_char (c : N) : N :=
  (if (65 <=? c) && (c <=? 90) then c + 32
   else if (1040 <=? c) && (c <=? 1071) then c + 32
   else c)%N.

Definition excerpt_text : Text :=
  {| isspace := excerpt_isspace; lower := fmap excerpt_lower_char |}.

(** * The vocabulary of the properties *)

(** ** Phones *)

(** Exactly ten characters, each one of the ASCII digits [0] to [9]. *)
Definition ten_ascii_digits (s : str) : Prop :=
  length s = 10%nat ∧ ∀ c, c ∈ s → ascii_digit c = true.

(** What the guard of [Phone.__init__] lets through. *)
Definition ten_digits {rt : Runtime} (s : str) : Prop :=
  length s = 10%nat ∧ ∀ c, c ∈ s → char_isdigit c = true.

Definition phone_error : exn :=
  NumberVerificationError (py "Phone number must contain exactly 10 digits").

Definition old_phone_error : exn := ValueError (py "Old phone number not found").

(** The list [phones] splits at the first stored phone with value [old]. *)
Definition first_match (phones : list Phone.t) (old : str)
    (before : list Phone.t) (p : Phone.t) (after : list Phone.t) : Prop :=
  phones = before ++ p :: after ∧ Phone.value p = old
  ∧ ∀ q, q ∈ before → Phone.value q ≠ old.

(** ** Operations on the book *)

(** The three operations on a book, and the book that a sequence of them
    builds from the empty one. *)
Inductive book_op :=
| op_add_record (record : Record.t)
| op_find (name : str)
| op_delete (name : str).

Definition apply_op (book : AddressBook.t) (o : book_op) : AddressBook.t :=
  match o with
  | op_add_record record => (AddressBook.add_record record book).2
  | op_find name => (AddressBook.find name book).2
  | op_delete name => (AddressBook.delete name book).2
  end.

Definition run_ops (ops : list book_op) : AddressBook.t :=
  foldl apply_op AddressBook.empty ops.

(** Every key is the name of its record, and no key occurs twice. *)
Definition keys_are_names (book : AddressBook.t) : Prop :=
  (∀ key record, (key, record) ∈ book → key = Name.value (Record.name record))
  ∧ NoDup (dict.keys book).

(** ** Spellings of dates *)

Section Spellings.
Context {rt : Runtime}.
Import strptime.

(** The spellings of the three fields that the pattern lets through: a
    day is [30]-[31], [1] or [2] and a decimal character, [01]-[09], one
    of [1]-[9], or a blank and one of [1]-[9]; a month is [10]-[12],
    [01]-[09] or one of [1]-[9]; a year is four decimal characters. *)
Definition day_text (d : str) : bool :=
  match d with
  | [c] => between 49 57 c
  | [c1; c2] =>
      (exactly 51 c1 && between 48 49 c2) || (between 49 50 c1 && re_digit c2)
      || (exactly 48 c1 && between 49 57 c2) || (exactly 32 c1 && between 49 57 c2)
  | _ => false
  end.

Definition month_text (m : str) : bool :=
  match m with
  | [c] => between 49 57 c
  | [c1; c2] =>
      (exactly 49 c1 && between 48 50 c2) || (exactly 48 c1 && between 49 57 c2)
  | _ => false
  end.

Definition year_text (y : str) : bool :=
  match y with
  | [a; b; c; d] => re_digit a && re_digit b && re_digit c && re_digit d
  | _ => false
  end.

(** The integer a field denotes. *)
Definition number (t : str) : Z :=
  match int t with
  | inr z => z
  | inl _ => 0
  end.

(** A text [d.m.y] that spells the date [dt]. *)
Definition spells (s : str) (dt : date.t) : Prop :=
  ∃ d m y, s = d ++ 46%N :: m ++ 46%N :: y
           ∧ day_text d = true ∧ month_text m = true ∧ year_text y = true
           ∧ date.new (number y) (number m) (number d) = ok dt.

End Spellings.

Definition birthday_error : exn :=
  ValueError (py "Invalid date format. Use DD.MM.YYYY").

(** The zero-padded spelling of a date: two, two and four digits. *)
Definition padded_dmY (dt : date.t) : str :=
  pad2 (date.day dt) ++ py "." ++ pad2 (date.month dt) ++ py "."
  ++ pad4 (date.year dt).

(** ** The calendar and the coming week *)

(** [a < b] on dates: the comparison of the triples year, month, day. *)
Definition date_ltb (a b : date.t) : bool :=
  (date.year a <? date.year b)
  || ((date.year a =? date.year b)
      && ((date.month a <? date.month b)
          || ((date.month a =? date.month b) && (date.day a <? date.day b)))).

Definition year_length (y : Z) : Z := if date._is_leap y then 366 else 365.

(** The birthday with its year replaced, as a triple that may or may not be
    a date of the calendar. *)
Definition with_year (d : date.t) (y : Z) : date.t :=
  date.mk y (date.month d) (date.day d).

(** The candidate date: the birthday in today's year, or in the year after
    when that day is strictly before today. *)
Definition candidate (today bday : date.t) : date.t :=
  let first := with_year bday (date.year today) in
  if date_ltb first today then with_year bday (date.year today + 1) else first.

(** Between 0 and 7 days after today, both included. *)
Definition in_window (today c : date.t) : bool :=
  (0 <=? date.sub_days c today) && (date.sub_days c today <=? 7).

(** The candidate can be formed: the birthday in today's year is a date of
    the calendar, and so is the candidate itself. *)
Definition candidate_exists (today bday : date.t) : Prop :=
  date.valid (with_year bday (date.year today))
  ∧ date.valid (candidate today bday).

(** The records to report with their candidate dates, in the order of the
    records. *)
Definition selected (today : date.t) (records : list Record.t)
    : list (Record.t * date.t) :=
  record ← records;
  match Record.birthday record with
  | Some b =>
      let c := candidate today (Birthday.value b) in
      if in_window today c then [(record, c)] else []
  | None => []
  end.

Definition birthday_lines {rt : Runtime} (l : list (Record.t * date.t)) : list str :=
  (λ rc, birthday_line rc.1 rc.2) <$> l.

(** The answer of [birthdays] for the records to report. *)
Definition birthdays_answer {rt : Runtime} (l : list (Record.t * date.t)) : str :=
  match l with
  | [] => py "No birthdays next week"
  | _ => join [10%N] (birthday_lines l)
  end.

(** A contact with a birthday and no phones, and a clock reading on a
    given day, for the examples. *)
Definition contact (name : str) (bday : date.t) : Record.t :=
  Record.mk (Name.mk name) [] (Some (Birthday.mk bday)).

Definition clock_on (d : date.t) : datetime.t := datetime.mk d 9 30 0 0.

(** * Properties *)

(** ** Literals and the calendar, by computation *)

Example py_ascii : py "a1." = [97; 49; 46]%N.
Proof. reflexivity. Qed.

Example py_arabic_indic : py "١٢" = [1633; 1634]%N.
Proof. reflexivity. Qed.

Example py_cyrillic : py "Не" = [1053; 1077]%N.
Proof. reflexivity. Qed.

Example toordinal_2024_03_10 : date.toordinal (date.mk 2024 3 10) = 738955.
Proof. reflexivity. Qed.

Example weekday_2024_03_12 :
  date.strftime_A (date.mk 2024 3 12) = py "Tuesday".
Proof. reflexivity. Qed.

(** ** Phone *)

Lemma forallb_elem_of {A} (p : A → bool) (l : list A) :
  forallb p l = true ↔ ∀ x, x ∈ l → p x = true.
Proof.
  rewrite forallb_forall. split; intros Hl x Hx; apply Hl.
  - by apply list_elem_of_In.
  - by apply list_elem_of_In.
Qed.

Lemma len_eq {A} (s : list A) (n : nat) : (len s =? Z.of_nat n) = bool_decide (length s = n).
Proof.
  unfold len. destruct (Z.eqb_spec (Z.of_nat (length s)) (Z.of_nat n)) as [E|E].
  - symmetry. apply bool_decide_eq_true. lia.
  - symmetry. apply bool_decide_eq_false. lia.
Qed.

Lemma isdigit_true {rt : Runtime} (s : str) :
  isdigit s = true ↔ s ≠ [] ∧ ∀ c, c ∈ s → char_isdigit c = true.
Proof.
  unfold isdigit. rewrite andb_true_iff, forallb_elem_of, negb_true_iff,
    bool_decide_eq_false. tauto.
Qed.

Lemma Phone_init_ok {rt : Runtime} (s : str) :
  ten_digits s → Phone.__init__ s = ok (Phone.mk s).
Proof.
  intros [Hlen Hall]. unfold Phone.__init__.
  assert (isdigit s = true) as ->.
  { apply isdigit_true. split; [|done]. intros ->. discriminate. }
  change 10 with (Z.of_nat 10). rewrite len_eq, bool_decide_eq_true_2; done.
Qed.

Lemma Phone_init_raises {rt : Runtime} (s : str) :
  ¬ ten_digits s → Phone.__init__ s = raise phone_error.
Proof.
  intros Hno. unfold Phone.__init__.
  destruct (isdigit s) eqn:Hd; [|done].
  change 10 with (Z.of_nat 10). rewrite len_eq.
  destruct (decide (length s = 10%nat)) as [Hl|Hl].
  - exfalso. apply Hno. split; [done|]. by apply isdigit_true in Hd as [_ ?].
  - by rewrite bool_decide_eq_false_2.
Qed.

Lemma ascii_digit_lt (c : N) : ascii_digit c = true → (c < 128)%N.
Proof. unfold ascii_digit. intros [_ Hc%N.leb_le]%andb_true_iff. lia. Qed.

Lemma char_isdigit_ascii {rt : Runtime} (c : N) :
  (c < 128)%N → char_isdigit c = ascii_digit c.
Proof. intros Hc. unfold char_isdigit. by apply N.ltb_lt in Hc as ->. Qed.

(** C3 (as amended). [Phone(value)] succeeds, and stores [value] unchanged,
    exactly on the strings of ten characters that [str.isdigit] accepts,
    and raises [NumberVerificationError] on every other string. Every
    string of ten ASCII digits is among the accepted ones, and an accepted
    string made of ASCII characters only consists of ten ASCII digits. *)
Theorem Phone_init_spec {rt : Runtime} (s : str) :
  (ten_digits s → Phone.__init__ s = ok (Phone.mk s))
  ∧ (¬ ten_digits s → Phone.__init__ s = raise phone_error)
  ∧ (ten_ascii_digits s → Phone.__init__ s = ok (Phone.mk s))
  ∧ ((∀ c, c ∈ s → (c < 128)%N) → ten_digits s → ten_ascii_digits s).
Proof.
  split; [apply Phone_init_ok|]. split; [apply Phone_init_raises|]. split.
  - intros [Hlen Hall]. apply Phone_init_ok. split; [done|].
    intros c Hc. rewrite char_isdigit_ascii; auto using ascii_digit_lt.
  - intros Hascii [Hlen Hall]. split; [done|].
    intros c Hc. rewrite <- char_isdigit_ascii; auto.
Qed.

Lemma Phone_init_spec_witness :
  ten_ascii_digits (py "0123456789")
  ∧ Phone.__init__ (rt:=excerpt_runtime) (py "0123456789")
    = ok (Phone.mk (py "0123456789")).
Proof.
  assert (ten_ascii_digits (py "0123456789")) as Hten.
  { split; [reflexivity|]. intros c Hc.
    apply (proj1 (forallb_elem_of ascii_digit (py "0123456789")));
      [reflexivity | exact Hc]. }
  split; [exact Hten|].
  exact (proj1 (proj2 (proj2 (Phone_init_spec (rt:=excerpt_runtime)
                                 (py "0123456789")))) Hten).
Defined.

(** C3 (as stated) fails: ten Arabic-Indic digits are not ten ASCII digits,
    and [Phone] accepts them. *)
Lemma Phone_init_accepts_arabic_indic_digits :
  ¬ ten_ascii_digits (py "١٢٣٤٥٦٧٨٩٠")
  ∧ Phone.__init__ (rt:=excerpt_runtime) (py "١٢٣٤٥٦٧٨٩٠")
    = ok (Phone.mk (py "١٢٣٤٥٦٧٨٩٠")).
Proof.
  split; [|reflexivity].
  intros [_ Hall]. specialize (Hall 1633%N).
  assert (1633%N ∈ py "١٢٣٤٥٦٧٨٩٠") as Hin by (vm_compute; left).
  apply Hall in Hin. discriminate.
Qed.

(** ** Record: removing phones *)

Lemma Record_eta (self : Record.t) :
  Record.mk (Record.name self) (Record.phones self) (Record.birthday self) = self.
Proof. by destruct self. Qed.

Lemma filter_all_id {A} (P : A → Prop) `{∀ x, Decision (P x)} (l : list A) :
  (∀ x, x ∈ l → P x) → filter P l = l.
Proof.
  induction l as [|a l IH]; intros Hall; [done|].
  rewrite filter_cons_True by (apply Hall; left).
  f_equal. apply IH. intros x Hx. apply Hall. by right.
Qed.

(** C7. [remove_phone(p)] never raises; it keeps, in their order, exactly
    the stored phones whose value differs from [p] and leaves name and
    birthday alone; when no stored phone has the value [p] the record is
    unchanged; and removing [p] again changes nothing. *)
Theorem remove_phone_idempotent (self : Record.t) (p : str) :
  let self' := (Record.remove_phone p self).2 in
  (Record.remove_phone p self).1 = ok tt
  ∧ Record.phones self' = filter (λ q, Phone.value q ≠ p) (Record.phones self)
  ∧ (∀ q, q ∈ Record.phones self' ↔ q ∈ Record.phones self ∧ Phone.value q ≠ p)
  ∧ Record.name self' = Record.name self
  ∧ Record.birthday self' = Record.birthday self
  ∧ ((∀ q, q ∈ Record.phones self → Phone.value q ≠ p) → self' = self)
  ∧ Record.remove_phone p self' = (ok tt, self').
Proof.
  assert (Record.remove_phone p self
          = (ok tt, Record.set_phones
                      (filter (λ q, Phone.value q ≠ p) (Record.phones self)) self))
    as Hrun by reflexivity.
  cbv zeta. rewrite Hrun. cbn [fst snd Record.set_phones Record.phones
                               Record.name Record.birthday].
  split; [done|]. split; [done|]. split.
  { intros q. rewrite list_elem_of_filter. tauto. }
  split; [done|]. split; [done|]. split.
  - intros Habsent. rewrite filter_all_id by done. apply Record_eta.
  - unfold Record.remove_phone, modify, Record.set_phones. cbn. do 2 f_equal.
    apply filter_all_id. by intros q [? ?]%list_elem_of_filter.
Qed.

Lemma remove_phone_idempotent_witness :
  let r := Record.mk (Name.mk (py "Ann")) [Phone.mk (py "0123456789")] None in
  (Record.remove_phone (py "5555555555") r).2 = r.
Proof.
  intros r.
  apply (proj1 (proj2 (proj2 (proj2 (proj2 (proj2
           (remove_phone_idempotent r (py "5555555555")))))))).
  intros q Hq. apply list_elem_of_singleton in Hq. subst q. discriminate.
Defined.

Example remove_phone_removes_all_matches :
  Record.phones
    (Record.remove_phone (py "1111111111")
       (Record.mk (Name.mk (py "Ann"))
          [Phone.mk (py "1111111111"); Phone.mk (py "2222222222");
           Phone.mk (py "1111111111")] None)).2
  = [Phone.mk (py "2222222222")].
Proof. reflexivity. Qed.

(** ** Record: editing a phone *)

Section EditPhone.
Context {rt : Runtime}.
Variables old new : str.

(** An exception of the loop leaves the record as it was. *)
Lemma edit_phone_from_raise (todo : list Phone.t) :
  ∀ i self e self',
    Record.edit_phone_from i todo old new self = (inl e, self') → self' = self.
Proof.
  induction todo as [|p rest IH]; intros i self e self'; cbn.
  - unfold throw. by intros [= _ <-].
  - case_bool_decide; [|by apply IH].
    unfold bind, lift, modify. destruct (Phone.__init__ new); [|done].
    by intros [= _ <-].
Qed.

Lemma edit_phone_from_absent (todo : list Phone.t) :
  ∀ i self,
    (∀ q, q ∈ todo → Phone.value q ≠ old) →
    Record.edit_phone_from i todo old new self = (raise old_phone_error, self).
Proof.
  induction todo as [|p rest IH]; intros i self Habs; cbn; [done|].
  rewrite bool_decide_eq_false_2 by (apply Habs; left).
  apply IH. intros q Hq. apply Habs. by right.
Qed.

Lemma edit_phone_from_found (before : list Phone.t) :
  ∀ p after i self,
    Phone.value p = old →
    (∀ q, q ∈ before → Phone.value q ≠ old) →
    Record.edit_phone_from i (before ++ p :: after) old new self
    = match Phone.__init__ new with
      | inl e => (inl e, self)
      | inr q =>
          (ok tt,
           Record.set_phones
             (<[(i + length before)%nat := Phone.mk (Phone.value q)]>
                (Record.phones self)) self)
      end.
Proof.
  induction before as [|b before IH]; intros p after i self Hp Hbefore; cbn.
  - rewrite bool_decide_eq_true_2 by done.
    unfold bind, lift, modify. destruct (Phone.__init__ new); [done|].
    by rewrite Nat.add_0_r.
  - rewrite bool_decide_eq_false_2 by (apply Hbefore; left).
    rewrite IH; [|done|intros q Hq; apply Hbefore; by right].
    destruct (Phone.__init__ new); [done|].
    by replace (S i + length before)%nat with (i + S (length before))%nat by lia.
Qed.

Lemma find_phone_in_app_absent (before rest : list Phone.t) (x : str) :
  (∀ q, q ∈ before → Phone.value q ≠ x) →
  Record.find_phone_in (before ++ rest) x = Record.find_phone_in rest x.
Proof.
  induction before as [|b before IH]; intros Hb; cbn; [done|].
  rewrite bool_decide_eq_false_2 by (apply Hb; left).
  apply IH. intros q Hq. apply Hb. by right.
Qed.

Lemma find_phone_in_none (ps : list Phone.t) (x : str) :
  Record.find_phone_in ps x = None ↔ ∀ q, q ∈ ps → Phone.value q ≠ x.
Proof.
  induction ps as [|p ps IH]; cbn.
  - split; [intros _ q Hq; by apply elem_of_nil in Hq|done].
  - case_bool_decide as Hp.
    + split; [done|]. intros Hall. exfalso. by apply (Hall p); [left|].
    + rewrite IH. split.
      * intros Hall q [->|Hq]%elem_of_cons; auto.
      * intros Hall q Hq. apply Hall. by right.
Qed.

Lemma find_phone_in_some (ps : list Phone.t) (x : str) (p : Phone.t) :
  Record.find_phone_in ps x = Some p → p ∈ ps ∧ Phone.value p = x.
Proof.
  induction ps as [|q ps IH]; cbn; [done|].
  case_bool_decide as Hq.
  - intros [= ->]. split; [left|done].
  - intros [? ?]%IH. split; [by right|done].
Qed.

Lemma find_phone_in_present (ps : list Phone.t) (x : str) (p : Phone.t) :
  p ∈ ps → Phone.value p = x →
  ∃ q, Record.find_phone_in ps x = Some q ∧ Phone.value q = x.
Proof.
  intros Hp Hx. destruct (Record.find_phone_in ps x) as [q|] eqn:Hf.
  - exists q. split; [done|]. by apply find_phone_in_some in Hf as [_ ?].
  - exfalso. by apply (proj1 (find_phone_in_none ps x) Hf p).
Qed.
End EditPhone.

(** C9. When [edit_phone(old, new)] raises, whatever the exception, the
    record (its phone list in particular) is the one before the call. *)
Theorem edit_phone_atomic_on_failure {rt : Runtime} (self self' : Record.t)
    (old new : str) (e : exn) :
  Record.edit_phone old new self = (inl e, self') →
  self' = self ∧ Record.phones self' = Record.phones self.
Proof.
  unfold Record.edit_phone, bind. cbn. intros Hrun.
  apply edit_phone_from_raise in Hrun. by subst.
Qed.

Lemma edit_phone_atomic_on_failure_witness :
  let r := Record.mk (Name.mk (py "Ann")) [Phone.mk (py "0123456789")] None in
  Record.edit_phone (rt:=excerpt_runtime) (py "0123456789") (py "12345") r
  = (raise phone_error, r)
  ∧ Record.phones r = [Phone.mk (py "0123456789")].
Proof.
  intros r. split; [reflexivity|].
  exact (proj2 (edit_phone_atomic_on_failure (rt:=excerpt_runtime) r r
                  (py "0123456789") (py "12345") phone_error eq_refl)).
Defined.

(** C6 (as amended). Let [old ≠ new]. If [old] is stored, first at some
    position, and [new] is a valid phone, [edit_phone(old, new)] replaces
    the phone at that position and nothing else; afterwards
    [find_phone(new)] returns a phone with value [new], and
    [find_phone(old)] returns what a search of the phones behind that
    position returns: [None] exactly when [old] was stored once. If [old]
    is stored and [new] is not valid the call raises
    [NumberVerificationError]; if [old] is not stored it raises
    [ValueError], valid [new] or not; a call that raises changes nothing. *)
Theorem edit_phone_spec {rt : Runtime} (self : Record.t) (old new : str) :
  old ≠ new →
  (∀ before p after,
     first_match (Record.phones self) old before p after →
     (ten_digits new →
      let self' := Record.set_phones (before ++ Phone.mk new :: after) self in
      Record.edit_phone old new self = (ok tt, self')
      ∧ (∃ q, Record.find_phone self' new = Some q ∧ Phone.value q = new)
      ∧ Record.find_phone self' old = Record.find_phone_in after old
      ∧ (Record.find_phone self' old = None
         ↔ ∀ q, q ∈ after → Phone.value q ≠ old))
     ∧ (¬ ten_digits new →
        Record.edit_phone old new self = (raise phone_error, self)))
  ∧ ((∀ q, q ∈ Record.phones self → Phone.value q ≠ old) →
     Record.edit_phone old new self = (raise old_phone_error, self)).
Proof.
  intros Hne. split.
  - intros before p after (Hsplit & Hp & Hbefore).
    assert (Record.edit_phone old new self
            = match Phone.__init__ new with
              | inl e => (inl e, self)
              | inr q => (ok tt, Record.set_phones
                                   (before ++ Phone.mk (Phone.value q) :: after) self)
              end) as Hrun.
    { unfold Record.edit_phone, bind. cbn. rewrite Hsplit at 1.
      rewrite edit_phone_from_found by done.
      destruct (Phone.__init__ new); [done|]. rewrite Hsplit. cbn.
      rewrite <- (Nat.add_0_r (length before)), insert_app_r. done. }
    split.
    + intros Hnew. cbv zeta. rewrite Hrun, (Phone_init_ok new Hnew). cbn.
      split; [done|]. unfold Record.find_phone. cbn.
      assert (Record.find_phone_in (before ++ Phone.mk new :: after) old
              = Record.find_phone_in after old) as Hold.
      { rewrite find_phone_in_app_absent by done. cbn.
        by rewrite bool_decide_eq_false_2 by (cbn; congruence). }
      split; [|split].
      * apply (find_phone_in_present _ new (Phone.mk new)); [|done].
        apply elem_of_app. right. left.
      * exact Hold.
      * rewrite Hold. apply find_phone_in_none.
    + intros Hbad. by rewrite Hrun, (Phone_init_raises new Hbad).
  - intros Habsent. unfold Record.edit_phone, bind. cbn.
    by rewrite edit_phone_from_absent.
Qed.

Lemma edit_phone_spec_witness :
  let r := Record.mk (Name.mk (py "Ann"))
             [Phone.mk (py "1111111111"); Phone.mk (py "2222222222")] None in
  Record.edit_phone (rt:=excerpt_runtime) (py "2222222222") (py "3333333333") r
  = (ok tt, Record.set_phones
              [Phone.mk (py "1111111111"); Phone.mk (py "3333333333")] r).
Proof.
  intros r.
  assert (py "2222222222" ≠ py "3333333333") as Hne by (by vm_compute).
  assert (ten_digits (rt:=excerpt_runtime) (py "3333333333")) as Hnew.
  { split; [reflexivity|]. intros c Hc.
    apply (proj1 (forallb_elem_of char_isdigit (py "3333333333")));
      [reflexivity | exact Hc]. }
  assert (first_match (Record.phones r) (py "2222222222")
            [Phone.mk (py "1111111111")] (Phone.mk (py "2222222222")) []) as Hfm.
  { split; [reflexivity|]. split; [reflexivity|].
    intros q Hq. apply list_elem_of_singleton in Hq. subst q. by vm_compute. }
  exact (proj1 (proj1 (proj1 (edit_phone_spec (rt:=excerpt_runtime) r
                                (py "2222222222") (py "3333333333") Hne)
                         _ _ _ Hfm) Hnew)).
Defined.

(** C6 (as stated) fails: phones may be stored twice, [edit_phone] replaces
    the first copy only, and [find_phone(old)] then returns the second. *)
Lemma edit_phone_leaves_second_copy :
  let r := Record.mk (Name.mk (py "Ann"))
             [Phone.mk (py "1111111111"); Phone.mk (py "1111111111")] None in
  let r' := Record.set_phones
              [Phone.mk (py "2222222222"); Phone.mk (py "1111111111")] r in
  py "1111111111" ≠ py "2222222222"
  ∧ Record.edit_phone (rt:=excerpt_runtime) (py "1111111111") (py "2222222222") r
    = (ok tt, r')
  ∧ Record.find_phone r' (py "1111111111") = Some (Phone.mk (py "1111111111")).
Proof. split; [by vm_compute|]. split; reflexivity. Qed.

(** The record of the counterexample arises from the program's own
    operations: [add_phone] does not look for duplicates. *)
Example add_phone_twice :
  (Record.add_phone (rt:=excerpt_runtime) (py "1111111111")
     (Record.add_phone (rt:=excerpt_runtime) (py "1111111111")
        (Record.mk (Name.mk (py "Ann")) [] None)).2).2
  = Record.mk (Name.mk (py "Ann"))
      [Phone.mk (py "1111111111"); Phone.mk (py "1111111111")] None.
Proof. reflexivity. Qed.

(** With [old] absent the validity of [new] is never looked at. *)
Example edit_phone_absent_old_invalid_new :
  Record.edit_phone (rt:=excerpt_runtime) (py "1111111111") (py "12")
    (Record.mk (Name.mk (py "Ann")) [] None)
  = (raise old_phone_error, Record.mk (Name.mk (py "Ann")) [] None).
Proof. reflexivity. Qed.

(** ** AddressBook: keys and names *)

Section DictFacts.
Context {V : Type}.
Implicit Types (d : dict.t V) (k : str) (v : V).

Lemma dict_get_elem_of d k v : dict.get d k = Some v → (k, v) ∈ d.
Proof.
  induction d as [|[k' v'] d IH]; cbn; [done|].
  case_bool_decide as Hk.
  - intros [= ->]. subst. left.
  - intros ?. right. auto.
Qed.

Lemma dict_get_none d k : dict.get d k = None ↔ k ∉ dict.keys d.
Proof.
  induction d as [|[k' v'] d IH]; cbn.
  - split; [intros _; apply not_elem_of_nil|done].
  - rewrite not_elem_of_cons. case_bool_decide as Hk.
    + split; [done|]. intros [? _]. congruence.
    + rewrite IH. split; [|tauto]. intros ?. split; [congruence|done].
Qed.

Lemma dict_set_elem_of d k v k1 v1 :
  (k1, v1) ∈ dict.set k v d → (k1, v1) ∈ d ∨ (k1 = k ∧ v1 = v).
Proof.
  induction d as [|[k' v'] d IH]; cbn.
  - intros [= -> ->]%list_elem_of_singleton. by right.
  - case_bool_decide as Hk.
    + intros [[= -> ->]|Hin]%elem_of_cons; [by right|]. left. by right.
    + intros [[= -> ->]|Hin]%elem_of_cons; [left; left|].
      destruct (IH Hin) as [?|?]; [left; by right|by right].
Qed.

Lemma dict_set_keys d k v :
  dict.keys (dict.set k v d)
  = if dict.contains d k then dict.keys d else dict.keys d ++ [k].
Proof.
  unfold dict.contains, dict.keys.
  induction d as [|[k' v'] d IH]; cbn; [done|].
  destruct (decide (k' = k)) as [Hk|Hk].
  - by rewrite !(bool_decide_eq_true_2 (k' = k)) by done.
  - rewrite !(bool_decide_eq_false_2 (k' = k)) by done. cbn.
    rewrite IH. by destruct (bool_decide (is_Some (dict.get d k))).
Qed.

(** Assigning to a key that is not there appends the entry. *)
Lemma dict_set_absent d k v : dict.get d k = None → dict.set k v d = d ++ [(k, v)].
Proof.
  induction d as [|[k' v'] d IH]; cbn; [done|].
  case_bool_decide as Hk; [done|]. intros ?. by rewrite IH.
Qed.

(** Assigning again to the key that was added last replaces the entry. *)
Lemma dict_set_last d k v v' :
  dict.get d k = None → dict.set k v' (d ++ [(k, v)]) = d ++ [(k, v')].
Proof.
  induction d as [|[k1 v1] d IH]; cbn.
  - intros _. by rewrite bool_decide_eq_true_2.
  - case_bool_decide as Hk; [done|]. intros ?. by rewrite IH.
Qed.

Lemma dict_del_sublist d k : sublist (dict.del k d) d.
Proof.
  induction d as [|[k' v'] d IH]; cbn; [done|].
  case_bool_decide; [by apply sublist_cons|by apply sublist_skip].
Qed.
End DictFacts.

Lemma keys_are_names_step (book : AddressBook.t) (o : book_op) :
  keys_are_names book → keys_are_names (apply_op book o).
Proof.
  intros [Hkeys Hnodup]. destruct o as [record|name|name]; cbn.
  - split.
    + intros key r [Hin|[-> ->]]%dict_set_elem_of; auto.
    + rewrite dict_set_keys. unfold dict.contains.
      case_bool_decide as Hpresent; [done|].
      apply list.NoDup_app. split; [done|]. split; [|apply NoDup_singleton].
      intros k Hk ->%list_elem_of_singleton.
      apply Hpresent. destruct (dict.get book _) eqn:Hget; [eauto|].
      by apply dict_get_none in Hget.
  - done.
  - unfold AddressBook.delete. destruct (dict.contains book name); cbn; [|done].
    pose proof (dict_del_sublist book name) as Hsub. split.
    + intros key r Hin. apply Hkeys. by eapply elem_of_sublist.
    + exact (sublist_NoDup _ _ Hnodup (fmap_sublist fst _ _ Hsub)).
Qed.

Lemma keys_are_names_foldl (ops : list book_op) :
  ∀ book, keys_are_names book → keys_are_names (foldl apply_op book ops).
Proof.
  induction ops as [|o ops IH]; intros book Hbook; cbn; [done|].
  apply IH. by apply keys_are_names_step.
Qed.

Lemma keys_are_names_empty : keys_are_names AddressBook.empty.
Proof. split; [intros ? ? []%elem_of_nil|apply NoDup_nil_2]. Qed.

(** C8. In the book that any sequence of [add_record], [find] and [delete]
    builds from the empty book, every key is the name of the record stored
    under it, both entry by entry and through lookup, and keys are unique. *)
Theorem address_book_keys_are_names (ops : list book_op) :
  keys_are_names (run_ops ops)
  ∧ ∀ key record,
      dict.get (run_ops ops) key = Some record →
      Name.value (Record.name record) = key.
Proof.
  assert (keys_are_names (run_ops ops)) as Hinv
    by apply keys_are_names_foldl, keys_are_names_empty.
  split; [done|]. intros key record Hget%dict_get_elem_of.
  symmetry. by apply Hinv.
Qed.

Lemma address_book_keys_are_names_witness :
  let ann := Record.mk (Name.mk (py "Ann")) [] None in
  let bob := Record.mk (Name.mk (py "Bob")) [] None in
  let ops := [op_add_record bob; op_add_record ann; op_find (py "Ann");
              op_delete (py "Bob")] in
  dict.get (run_ops ops) (py "Ann") = Some ann
  ∧ Name.value (Record.name ann) = py "Ann".
Proof.
  intros ann bob ops.
  assert (dict.get (run_ops ops) (py "Ann") = Some ann) as Hget by reflexivity.
  split; [exact Hget|].
  exact (proj2 (address_book_keys_are_names ops) (py "Ann") ann Hget).
Defined.

(** ** add_contact *)


Lemma add_phone_raise {rt : Runtime} (phone : str) (record : Record.t) :
  ¬ ten_digits phone → Record.add_phone phone record = (raise phone_error, record).
Proof.
  intros Hbad. unfold Record.add_phone, bind, lift.
  by rewrite (Phone_init_raises phone Hbad).
Qed.




(** With the empty name, which is in no book, no record is inserted. *)
Example add_contact_empty_name :
  add_contact (rt:=excerpt_runtime) [[]; py "12345"] AddressBook.empty
  = (ok (py "Name cannot be empty"), AddressBook.empty).
Proof. reflexivity. Qed.

(** ** Birthday: which texts are dates *)

Section BirthdayTexts.
Context {rt : Runtime}.
Import strptime.

Lemma elem_of_take1 (p : N → bool) (s d r : str) :
  (d, r) ∈ take1 p s ↔ ∃ c, d = [c] ∧ s = c :: r ∧ p c = true.
Proof.
  destruct s as [|c s]; cbn.
  - split; [by intros ?%elem_of_nil|by intros (? & _ & ? & _)].
  - destruct (p c) eqn:Hp.
    + rewrite list_elem_of_singleton. split.
      * intros [= -> ->]. eauto.
      * by intros (c' & -> & [= -> ->] & _).
    + split; [by intros ?%elem_of_nil|].
      intros (c' & -> & [= -> ->] & ?). congruence.
Qed.

Lemma elem_of_take2 (p1 p2 : N → bool) (s d r : str) :
  (d, r) ∈ take2 p1 p2 s
  ↔ ∃ c1 c2, d = [c1; c2] ∧ s = c1 :: c2 :: r ∧ p1 c1 = true ∧ p2 c2 = true.
Proof.
  destruct s as [|c1 [|c2 s]]; cbn.
  - split; [by intros ?%elem_of_nil|by intros (? & ? & _ & ? & _)].
  - split; [by intros ?%elem_of_nil|by intros (? & ? & _ & ? & _)].
  - destruct (p1 c1 && p2 c2) eqn:Hp.
    + apply andb_true_iff in Hp as [? ?].
      rewrite list_elem_of_singleton. split.
      * intros [= -> ->]. eauto 10.
      * by intros (? & ? & -> & [= -> -> ->] & _).
    + split; [by intros ?%elem_of_nil|].
      intros (? & ? & -> & [= -> -> ->] & H1 & H2).
      rewrite H1, H2 in Hp. discriminate.
Qed.

Lemma elem_of_re_d (s d r : str) :
  (d, r) ∈ re_d s ↔ s = d ++ r ∧ day_text d = true.
Proof.
  unfold re_d. rewrite !elem_of_app, elem_of_take1, !elem_of_take2. split.
  - intros [H|[H|[H|[H|H]]]].
    + destruct H as (c1 & c2 & -> & -> & H1 & H2). cbn. by rewrite H1, H2.
    + destruct H as (c1 & c2 & -> & -> & H1 & H2). cbn.
      rewrite H1, H2. by rewrite orb_true_r.
    + destruct H as (c1 & c2 & -> & -> & H1 & H2). cbn.
      rewrite H1, H2. by rewrite !orb_true_r.
    + by destruct H as (c & -> & -> & H1).
    + destruct H as (c1 & c2 & -> & -> & H1 & H2). cbn.
      rewrite H1, H2. by rewrite !orb_true_r.
  - intros [-> Hd]. destruct d as [|c1 [|c2 [|]]]; try done; cbn in Hd.
    + right; right; right; left. eauto.
    + apply orb_true_iff in Hd as [Hd|Hd];
        [apply orb_true_iff in Hd as [Hd|Hd];
         [apply orb_true_iff in Hd as [Hd|Hd]|]|];
        apply andb_true_iff in Hd as [? ?].
      * left. eauto 10.
      * right; left. eauto 10.
      * right; right; left. eauto 10.
      * right; right; right; right. eauto 10.
Qed.

Lemma elem_of_re_m (s m r : str) :
  (m, r) ∈ re_m s ↔ s = m ++ r ∧ month_text m = true.
Proof.
  unfold re_m. rewrite !elem_of_app, elem_of_take1, !elem_of_take2. split.
  - intros [H|[H|H]].
    + destruct H as (c1 & c2 & -> & -> & H1 & H2). cbn. by rewrite H1, H2.
    + destruct H as (c1 & c2 & -> & -> & H1 & H2). cbn.
      rewrite H1, H2. by rewrite orb_true_r.
    + by destruct H as (c & -> & -> & H1).
  - intros [-> Hm]. destruct m as [|c1 [|c2 [|]]]; try done; cbn in Hm.
    + right; right. eauto.
    + apply orb_true_iff in Hm as [Hm|Hm]; apply andb_true_iff in Hm as [? ?].
      * left. eauto 10.
      * right; left. eauto 10.
Qed.

Lemma elem_of_re_Y (s y r : str) :
  (y, r) ∈ re_Y s ↔ s = y ++ r ∧ year_text y = true.
Proof.
  split.
  - destruct s as [|a [|b [|c [|d s]]]]; cbn; try by intros ?%elem_of_nil.
    destruct (re_digit a && re_digit b && re_digit c && re_digit d) eqn:Hy;
      [|by intros ?%elem_of_nil].
    by intros [= -> ->]%list_elem_of_singleton.
  - intros [-> Hy]. destruct y as [|a [|b [|c [|d [|]]]]]; try done.
    cbn in *. rewrite Hy. left.
Qed.

Lemma elem_of_re_dot (s r : str) : r ∈ re_dot s ↔ s = 46%N :: r.
Proof.
  destruct s as [|c s]; cbn.
  - split; [by intros ?%elem_of_nil|done].
  - unfold exactly. destruct (N.eqb_spec c 46) as [->|Hc].
    + rewrite list_elem_of_singleton. split; congruence.
    + split; [by intros ?%elem_of_nil|congruence].
Qed.

(** Soundness and completeness of the matcher for the spellings. *)
Lemma elem_of_matches (s d m y r : str) :
  (d, m, y, r) ∈ matches s
  ↔ s = d ++ 46%N :: m ++ 46%N :: y ++ r
    ∧ day_text d = true ∧ month_text m = true ∧ year_text y = true.
Proof.
  unfold matches. rewrite list_elem_of_bind. split.
  - intros ([d' r1] & H1 & [-> Hd]%elem_of_re_d).
    apply list_elem_of_bind in H1 as (r2 & H2 & ->%elem_of_re_dot).
    apply list_elem_of_bind in H2 as ([m' r3] & H3 & [-> Hm]%elem_of_re_m).
    apply list_elem_of_bind in H3 as (r4 & H4 & ->%elem_of_re_dot).
    apply list_elem_of_bind in H4 as ([y' r5] & H5 & [-> Hy]%elem_of_re_Y).
    apply list_elem_of_singleton in H5 as [= -> -> -> ->]. done.
  - intros (-> & Hd & Hm & Hy).
    exists (d, 46%N :: m ++ 46%N :: y ++ r). split; [|by apply elem_of_re_d].
    apply list_elem_of_bind. exists (m ++ 46%N :: y ++ r).
    split; [|by apply elem_of_re_dot].
    apply list_elem_of_bind. exists (m, 46%N :: y ++ r).
    split; [|by apply elem_of_re_m].
    apply list_elem_of_bind. exists (y ++ r). split; [|by apply elem_of_re_dot].
    apply list_elem_of_bind. exists (y, r). split; [|by apply elem_of_re_Y].
    left.
Qed.
End BirthdayTexts.

Section BirthdayParse.
Context {rt : Runtime}.
Import strptime.

Lemma re_digit_dot : re_digit 46 = false.
Proof. reflexivity. Qed.

Lemma re_digit_blank : re_digit 32 = false.
Proof. reflexivity. Qed.

Lemma between_re_digit (lo hi c : N) :
  (48 ≤ lo)%N → (hi ≤ 57)%N → between lo hi c = true → re_digit c = true.
Proof.
  unfold between, re_digit, decimal_value, ascii_digit.
  intros Hlo Hhi [H1%N.leb_le H2%N.leb_le]%andb_true_iff.
  assert ((c <? 128)%N = true) as -> by (apply N.ltb_lt; lia).
  assert ((48 <=? c)%N = true) as -> by (apply N.leb_le; lia).
  assert ((c <=? 57)%N = true) as -> by (apply N.leb_le; lia).
  done.
Qed.

Lemma exactly_eq (x c : N) : exactly x c = true ↔ c = x.
Proof. unfold exactly. apply N.eqb_eq. Qed.

Lemma between_ne (lo hi c x : N) :
  (x < lo ∨ hi < x)%N → between lo hi c = true → c ≠ x.
Proof.
  unfold between. intros Hx [H1%N.leb_le H2%N.leb_le]%andb_true_iff. lia.
Qed.

Lemma re_digit_ne (c x : N) : re_digit x = false → re_digit c = true → c ≠ x.
Proof. congruence. Qed.

Lemma day_text_no_dot (d : str) : day_text d = true → 46%N ∉ d.
Proof.
  destruct d as [|c1 [|c2 [|]]]; try done; cbn; intros Hd.
  - apply not_elem_of_cons. split; [|apply not_elem_of_nil].
    symmetry. eapply between_ne; [|done]. lia.
  - assert (c1 ≠ 46%N ∧ c2 ≠ 46%N) as [? ?].
    { repeat (apply orb_true_iff in Hd as [Hd|Hd]);
        apply andb_true_iff in Hd as [H1 H2]; split;
        first [ apply exactly_eq in H1; by subst
              | eapply between_ne; [|done]; lia
              | eapply re_digit_ne; [|done]; done ]. }
    rewrite !not_elem_of_cons. repeat split; try done. apply not_elem_of_nil.
Qed.

Lemma month_text_no_dot (m : str) : month_text m = true → 46%N ∉ m.
Proof.
  destruct m as [|c1 [|c2 [|]]]; try done; cbn; intros Hm.
  - apply not_elem_of_cons. split; [|apply not_elem_of_nil].
    symmetry. eapply between_ne; [|done]. lia.
  - assert (c1 ≠ 46%N ∧ c2 ≠ 46%N) as [? ?].
    { repeat (apply orb_true_iff in Hm as [Hm|Hm]);
        apply andb_true_iff in Hm as [H1 H2]; split;
        first [ apply exactly_eq in H1; by subst
              | eapply between_ne; [|done]; lia ]. }
    rewrite !not_elem_of_cons. repeat split; try done. apply not_elem_of_nil.
Qed.

Lemma year_text_length (y : str) : year_text y = true → length y = 4%nat.
Proof. by destruct y as [|a [|b [|c [|d [|]]]]]. Qed.

(** A text splits in one way only at a separator that the part before it
    does not contain. *)
Lemma split_at_unique (x : N) (a a' b b' : str) :
  x ∉ a → x ∉ a' → a ++ x :: b = a' ++ x :: b' → a = a' ∧ b = b'.
Proof.
  revert a'. induction a as [|c a IH]; intros [|c' a'] Ha Ha'; cbn.
  - by intros [= ->].
  - intros [= <- _]. exfalso. apply Ha'. left.
  - intros [= -> _]. exfalso. apply Ha. left.
  - intros [= -> Hrest]. apply not_elem_of_cons in Ha as [_ Ha].
    apply not_elem_of_cons in Ha' as [_ Ha'].
    destruct (IH a' Ha Ha' Hrest) as [-> ->]. done.
Qed.

Lemma matches_unique (s : str) (x x' : str * str * str * str) :
  x ∈ matches s → x' ∈ matches s → x = x'.
Proof.
  destruct x as [[[d m] y] r], x' as [[[d' m'] y'] r'].
  intros (Hs & Hd & Hm & Hy)%elem_of_matches
         (Hs' & Hd' & Hm' & Hy')%elem_of_matches.
  rewrite Hs in Hs'.
  apply split_at_unique in Hs' as [-> Hs']; [|by apply day_text_no_dot..].
  apply split_at_unique in Hs' as [-> Hs']; [|by apply month_text_no_dot..].
  apply app_inj_1 in Hs' as [-> ->];
    [done|by rewrite !year_text_length].
Qed.

Lemma head_matches (s : str) (x : str * str * str * str) :
  head (matches s) = Some x ↔ x ∈ matches s.
Proof.
  split; [apply head_Some_elem_of|].
  intros Hx. destruct (matches s) as [|x' l] eqn:Hl.
  - by apply elem_of_nil in Hx.
  - cbn. f_equal. apply (matches_unique s); rewrite Hl; [left|done].
Qed.

(** [int] on the fields. *)
Lemma digits_value_is_Some (t : str) :
  ∀ acc, forallb re_digit t = true → is_Some (digits_value acc t).
Proof.
  induction t as [|c t IH]; intros acc; cbn; [eauto|].
  intros [Hc Ht]%andb_true_iff. unfold re_digit in Hc.
  apply bool_decide_eq_true in Hc as [v ->]. by apply IH.
Qed.

Lemma number_of_int (t : str) (z : Z) : int t = ok z → int t = ok (number t).
Proof. unfold number. by intros ->. Qed.

Lemma int_digits (t : str) :
  t ≠ [] → forallb re_digit t = true → int t = ok (number t).
Proof.
  intros Hne Ht.
  assert (strip_blank t = t) as Hstrip.
  { destruct t as [|c t]; [done|]. cbn in Ht.
    apply andb_true_iff in Ht as [Hc _].
    destruct (decide (c = 32%N)) as [->|Hc32]; [by rewrite re_digit_blank in Hc|].
    unfold strip_blank. by repeat case_match. }
  destruct (digits_value_is_Some t 0 Ht) as [z Hz].
  apply (number_of_int t z). unfold int. rewrite Hstrip.
  destruct t; [done|]. by rewrite Hz.
Qed.

Lemma int_blank_digit (c : N) :
  re_digit c = true → int [32%N; c] = ok (number [32%N; c]).
Proof.
  intros Hc. unfold re_digit in Hc. apply bool_decide_eq_true in Hc as [v Hv].
  apply (number_of_int _ (Z.of_N v)). unfold int. cbn. by rewrite Hv.
Qed.

Lemma int_day (d : str) : day_text d = true → int d = ok (number d).
Proof.
  destruct d as [|c1 [|c2 [|]]]; try done; cbn; intros Hd.
  - apply int_digits; [done|]. cbn.
    by rewrite (between_re_digit 49 57 c1) by (done || lia).
  - repeat (apply orb_true_iff in Hd as [Hd|Hd]);
      apply andb_true_iff in Hd as [H1 H2].
    + apply int_digits; [done|]. cbn. apply exactly_eq in H1 as ->.
      by rewrite (between_re_digit 48 49 c2) by (done || lia).
    + apply int_digits; [done|]. cbn.
      by rewrite (between_re_digit 49 50 c1), H2 by (done || lia).
    + apply int_digits; [done|]. cbn. apply exactly_eq in H1 as ->.
      by rewrite (between_re_digit 49 57 c2) by (done || lia).
    + apply exactly_eq in H1 as ->. apply int_blank_digit.
      by apply (between_re_digit 49 57).
Qed.

Lemma int_month (m : str) : month_text m = true → int m = ok (number m).
Proof.
  destruct m as [|c1 [|c2 [|]]]; try done; cbn; intros Hm.
  - apply int_digits; [done|]. cbn.
    by rewrite (between_re_digit 49 57 c1) by (done || lia).
  - repeat (apply orb_true_iff in Hm as [Hm|Hm]);
      apply andb_true_iff in Hm as [H1 H2].
    + apply int_digits; [done|]. cbn. apply exactly_eq in H1 as ->.
      by rewrite (between_re_digit 48 50 c2) by (done || lia).
    + apply int_digits; [done|]. cbn. apply exactly_eq in H1 as ->.
      by rewrite (between_re_digit 49 57 c2) by (done || lia).
Qed.

Lemma int_year (y : str) : year_text y = true → int y = ok (number y).
Proof.
  destruct y as [|a [|b [|c [|d [|]]]]]; try done; cbn; intros Hy.
  apply andb_true_iff in Hy as [[[Ha Hb]%andb_true_iff Hc]%andb_true_iff Hd].
  apply int_digits; [done|]. cbn. by rewrite Ha, Hb, Hc, Hd.
Qed.
End BirthdayParse.

Lemma forall_range (p : Z → bool) (lo : Z) (n : nat) :
  forallb p (map (λ i, lo + Z.of_nat i) (seq 0 n)) = true →
  ∀ v, lo ≤ v < lo + Z.of_nat n → p v = true.
Proof.
  intros Hall v Hv. rewrite forallb_forall in Hall. apply Hall.
  apply in_map_iff. exists (Z.to_nat (v - lo)). split; [lia|].
  apply in_seq. lia.
Qed.

Section BirthdaySpec.
Context {rt : Runtime}.
Import strptime.

Lemma int_error (t : str) (e : exn) : int t = inl e → ∃ msg, e = ValueError msg.
Proof.
  unfold int. destruct (strip_blank t); [intros [= <-]; eauto|].
  destruct (digits_value _ _); [done|]. intros [= <-]. eauto.
Qed.

Lemma new_error (y m d : Z) (e : exn) :
  date.new y m d = inl e → ∃ msg, e = ValueError msg.
Proof. unfold date.new. repeat case_match; try done; intros [= <-]; eauto. Qed.

Lemma new_valid (y m d : Z) (dt : date.t) :
  date.new y m d = ok dt → dt = date.mk y m d ∧ date.valid dt.
Proof.
  unfold date.new, date.valid.
  destruct (_ && _) eqn:Hy; [|done]. destruct (_ && _) eqn:Hm in |- *; [|done].
  destruct (_ && _) eqn:Hd in |- *; [|done]. cbn. intros [= <-]. cbn.
  apply andb_true_iff in Hy as [?%Z.leb_le ?%Z.leb_le].
  apply andb_true_iff in Hm as [?%Z.leb_le ?%Z.leb_le].
  apply andb_true_iff in Hd as [?%Z.leb_le ?%Z.leb_le]. done.
Qed.

Lemma new_of_valid (dt : date.t) :
  date.valid dt → date.new (date.year dt) (date.month dt) (date.day dt) = ok dt.
Proof.
  destruct dt as [y m d]. unfold date.valid, date.new. cbn.
  intros ([? ?] & [? ?] & [? ?]).
  rewrite !(proj2 (Z.leb_le _ _)) by done. done.
Qed.

(** The parser returns a date exactly for the texts that spell it, and
    raises nothing but [ValueError]. *)
Lemma parse_dmY_spells (s : str) (dt : date.t) :
  parse_dmY s = ok dt ↔ spells s dt.
Proof.
  unfold parse_dmY, spells. split.
  - destruct (head (matches s)) as [[[[d m] y] rest]|] eqn:Hh; [|done].
    apply head_matches, elem_of_matches in Hh as (Hs & Hd & Hm & Hy).
    cbv zeta. destruct (Z.eqb_spec (len s) (len s - len rest)) as [Hlen|]; [|done].
    cbn. assert (rest = []) as ->.
    { unfold len in Hlen. destruct rest; [done|]. cbn in Hlen. lia. }
    rewrite (int_day d Hd), (int_month m Hm), (int_year y Hy).
    intros Hnew. exists d, m, y. by rewrite app_nil_r in Hs.
  - intros (d & m & y & Hs & Hd & Hm & Hy & Hnew).
    assert (head (matches s) = Some (d, m, y, [])) as ->.
    { apply head_matches, elem_of_matches. by rewrite app_nil_r. }
    cbv zeta. replace (len s - len []) with (len s) by (unfold len; cbn; lia).
    rewrite Z.eqb_refl. cbn.
    by rewrite (int_day d Hd), (int_month m Hm), (int_year y Hy).
Qed.

Lemma parse_dmY_error (s : str) (e : exn) :
  parse_dmY s = inl e → ∃ msg, e = ValueError msg.
Proof.
  unfold parse_dmY.
  destruct (head (matches s)) as [[[[d m] y] rest]|]; [|intros [= <-]; eauto].
  cbv zeta. destruct (negb _); [intros [= <-]; eauto|].
  destruct (int d) eqn:Hd; [intros [= <-]; by eapply int_error|].
  destruct (int m) eqn:Hm; [intros [= <-]; by eapply int_error|].
  destruct (int y) eqn:Hy; [intros [= <-]; by eapply int_error|].
  apply new_error.
Qed.

Lemma Birthday_init_ok (s : str) (b : Birthday.t) :
  Birthday.__init__ s = ok b ↔ spells s (Birthday.value b).
Proof.
  rewrite <- parse_dmY_spells. unfold Birthday.__init__.
  destruct (parse_dmY s) as [e|dt] eqn:Hp.
  - apply parse_dmY_error in Hp as [msg ->]. split; done.
  - destruct b as [dt']. cbn. split; [by intros [= ->]|by intros [= ->]].
Qed.

Lemma Birthday_init_raises (s : str) :
  (∀ dt, ¬ spells s dt) → Birthday.__init__ s = raise birthday_error.
Proof.
  intros Hno. unfold Birthday.__init__.
  destruct (parse_dmY s) as [e|dt] eqn:Hp.
  - by apply parse_dmY_error in Hp as [msg ->].
  - by apply parse_dmY_spells, Hno in Hp.
Qed.

(** The padded spellings of the fields. *)
Lemma pad2_day (v : Z) :
  1 ≤ v ≤ 31 → day_text (pad2 v) = true ∧ number (pad2 v) = v.
Proof.
  intros Hv.
  assert (day_text (pad2 v) && (number (pad2 v) =? v) = true) as Hall.
  { apply (forall_range (λ v, day_text (pad2 v) && (number (pad2 v) =? v)) 1 31);
      [by vm_compute|lia]. }
  by apply andb_true_iff in Hall as [? ?%Z.eqb_eq].
Qed.

Lemma pad2_month (v : Z) :
  1 ≤ v ≤ 12 → month_text (pad2 v) = true ∧ number (pad2 v) = v.
Proof.
  intros Hv.
  assert (month_text (pad2 v) && (number (pad2 v) =? v) = true) as Hall.
  { apply (forall_range (λ v, month_text (pad2 v) && (number (pad2 v) =? v)) 1 12);
      [by vm_compute|lia]. }
  by apply andb_true_iff in Hall as [? ?%Z.eqb_eq].
Qed.

Lemma pad4_year (v : Z) :
  1 ≤ v ≤ 9999 → year_text (pad4 v) = true ∧ number (pad4 v) = v.
Proof.
  intros Hv.
  assert (year_text (pad4 v) && (number (pad4 v) =? v) = true) as Hall.
  { apply (forall_range (λ v, year_text (pad4 v) && (number (pad4 v) =? v)) 1
             (Z.to_nat 9999));
      [by vm_compute|lia]. }
  by apply andb_true_iff in Hall as [? ?%Z.eqb_eq].
Qed.

Lemma spells_padded (dt : date.t) : date.valid dt → spells (padded_dmY dt) dt.
Proof.
  intros Hvalid. pose proof Hvalid as (Hy & Hm & Hd).
  assert (1 ≤ date.day dt ≤ 31) as Hd31.
  { revert Hd. unfold date._days_in_month, date._DAYS_IN_MONTH.
    repeat case_match; lia. }
  destruct (pad2_day _ Hd31) as [Hdt Hdn].
  destruct (pad2_month _ Hm) as [Hmt Hmn].
  destruct (pad4_year _ Hy) as [Hyt Hyn].
  exists (pad2 (date.day dt)), (pad2 (date.month dt)), (pad4 (date.year dt)).
  split; [done|]. rewrite Hdn, Hmn, Hyn. by rewrite new_of_valid.
Qed.

Lemma strftime_padded (dt : date.t) :
  date.strftime_Y (date.year dt) = pad4 (date.year dt) →
  date.strftime_dmY dt = padded_dmY dt.
Proof. unfold date.strftime_dmY, padded_dmY. by intros ->. Qed.
End BirthdaySpec.

(** Validity of a date given by numerals. *)
Ltac valid_date :=
  unfold date.valid, date.MINYEAR, date.MAXYEAR;
  cbn [date.year date.month date.day];
  repeat split; try lia; by vm_compute.

(** C4 (as amended). For every real calendar date (year 1 to 9999),
    [Birthday] accepts its zero-padded spelling [DD.MM.YYYY] and stores
    that date, and formatting the stored date with the same pattern gives
    the spelling back whenever [%Y] prints four digits: from year 1000 on,
    and below where the platform pads. In general [Birthday(s)] succeeds
    exactly when [s] spells the stored date in one of the forms the pattern
    of [strptime] lets through (which include days and months of one
    digit); the stored date is then a real calendar date; and it raises the
    [ValueError] of [Birthday] on every text that spells no date. *)
Theorem Birthday_init_spec {rt : Runtime} :
  (∀ dt, date.valid dt →
     Birthday.__init__ (padded_dmY dt) = ok (Birthday.mk dt)
     ∧ (1000 ≤ date.year dt → date.strftime_dmY dt = padded_dmY dt)
     ∧ (strftime_Y_short (date.year dt) = pad4 (date.year dt) →
        date.strftime_dmY dt = padded_dmY dt))
  ∧ (∀ s b, Birthday.__init__ s = ok b ↔ spells s (Birthday.value b))
  ∧ (∀ s b, Birthday.__init__ s = ok b → date.valid (Birthday.value b))
  ∧ (∀ s, (∀ dt, ¬ spells s dt) → Birthday.__init__ s = raise birthday_error)
  ∧ (∀ s, Birthday.__init__ s = raise birthday_error ∨ ∃ b, Birthday.__init__ s = ok b).
Proof.
  split; [|split; [|split; [|split]]].
  - intros dt Hvalid. split; [|split].
    + apply Birthday_init_ok. cbn. by apply spells_padded.
    + intros Hy. apply strftime_padded. unfold date.strftime_Y.
      by rewrite (proj2 (Z.ltb_ge _ _)) by lia.
    + intros Hpad. apply strftime_padded. unfold date.strftime_Y.
      by destruct (_ <? _).
  - apply Birthday_init_ok.
  - intros s b (d & m & y & _ & _ & _ & _ & Hnew)%Birthday_init_ok.
    by apply new_valid in Hnew as [_ ?].
  - apply Birthday_init_raises.
  - intros s. unfold Birthday.__init__.
    destruct (strptime.parse_dmY s) as [e|dt] eqn:Hp; [|eauto].
    apply parse_dmY_error in Hp as [msg ->]. by left.
Qed.

Lemma Birthday_init_spec_witness :
  date.valid (date.mk 2024 2 29)
  ∧ Birthday.__init__ (rt:=excerpt_runtime) (py "29.02.2024")
    = ok (Birthday.mk (date.mk 2024 2 29))
  ∧ date.strftime_dmY (rt:=excerpt_runtime) (date.mk 2024 2 29) = py "29.02.2024".
Proof.
  assert (date.valid (date.mk 2024 2 29)) as Hvalid by valid_date.
  pose proof (proj1 (Birthday_init_spec (rt:=excerpt_runtime))
                (date.mk 2024 2 29) Hvalid) as (Hinit & Hfmt & _).
  split; [exact Hvalid|]. split; [exact Hinit|].
  apply Hfmt. cbn. lia.
Defined.

(** C4 (as stated) fails: a day and a month of one digit are not the
    zero-padded format, yet the text is accepted, and formatting the stored
    date does not give the text back. *)
Lemma Birthday_init_accepts_unpadded :
  (∀ dt, py "1.3.2024" ≠ padded_dmY dt)
  ∧ Birthday.__init__ (rt:=excerpt_runtime) (py "1.3.2024")
    = ok (Birthday.mk (date.mk 2024 3 1))
  ∧ date.strftime_dmY (rt:=excerpt_runtime) (date.mk 2024 3 1) = py "01.03.2024"
  ∧ py "01.03.2024" ≠ py "1.3.2024".
Proof.
  split; [|split; [reflexivity|split; [reflexivity|by vm_compute]]].
  intros dt. unfold padded_dmY, pad2. change (py "1.3.2024") with
    [49; 46; 51; 46; 50; 48; 50; 52]%N.
  intros Heq. apply (f_equal (λ l, l !! 1%nat)) in Heq. cbn in Heq.
  injection Heq as Hdot. unfold digit_char in Hdot.
  pose proof (Z.mod_pos_bound (date.day dt) 10). lia.
Qed.

(** Other texts that are not zero-padded and are accepted, and texts that
    are refused. *)
Example Birthday_init_blank_day :
  Birthday.__init__ (rt:=excerpt_runtime) (py " 1.03.2024")
  = ok (Birthday.mk (date.mk 2024 3 1)).
Proof. reflexivity. Qed.

Example Birthday_init_arabic_indic_year :
  Birthday.__init__ (rt:=excerpt_runtime) (py "01.03.٢٠٢٤")
  = ok (Birthday.mk (date.mk 2024 3 1)).
Proof. reflexivity. Qed.

Example Birthday_init_impossible_date :
  Birthday.__init__ (rt:=excerpt_runtime) (py "31.02.2024") = raise birthday_error.
Proof. reflexivity. Qed.

Example Birthday_init_year_zero :
  Birthday.__init__ (rt:=excerpt_runtime) (py "01.01.0000") = raise birthday_error.
Proof. reflexivity. Qed.

Example Birthday_init_trailing_text :
  Birthday.__init__ (rt:=excerpt_runtime) (py "01.03.2024 ") = raise birthday_error.
Proof. reflexivity. Qed.

Example Birthday_init_iso : 
  Birthday.__init__ (rt:=excerpt_runtime) (py "2024-03-01") = raise birthday_error.
Proof. reflexivity. Qed.

(** ** The calendar: order of dates and day numbers *)

Lemma days_before_year_succ (y : Z) :
  date._days_before_year (y + 1) = date._days_before_year y + year_length y.
Proof.
  unfold date._days_before_year, year_length, date._is_leap. cbv zeta.
  replace (y + 1 - 1) with y by lia.
  destruct (Z.eqb_spec (y mod 4) 0), (Z.eqb_spec (y mod 100) 0),
    (Z.eqb_spec (y mod 400) 0); cbn; Z.div_mod_to_equations; lia.
Qed.

Lemma days_before_year_mono (y y' : Z) :
  y ≤ y' → date._days_before_year y ≤ date._days_before_year y'.
Proof.
  unfold date._days_before_year. cbv zeta. Z.div_mod_to_equations. lia.
Qed.

(** The months of a valid date, one case each. *)
Ltac month_cases m :=
  let H := fresh "Hmonth" in
  assert (H : m = 1 ∨ m = 2 ∨ m = 3 ∨ m = 4 ∨ m = 5 ∨ m = 6 ∨ m = 7 ∨ m = 8
              ∨ m = 9 ∨ m = 10 ∨ m = 11 ∨ m = 12) by lia;
  repeat (destruct H as [H|H]); subst m.

Lemma day_of_year_bounds (y m d : Z) :
  1 ≤ m ≤ 12 → 1 ≤ d ≤ date._days_in_month y m →
  1 ≤ date._days_before_month y m + d ≤ year_length y.
Proof.
  intros Hm. unfold date._days_before_month, date._days_in_month, year_length.
  month_cases m; cbn; destruct (date._is_leap y); cbn; lia.
Qed.

Lemma day_of_year_month_lt (y m d m' d' : Z) :
  1 ≤ m → m < m' → m' ≤ 12 →
  d ≤ date._days_in_month y m → 1 ≤ d' →
  date._days_before_month y m + d < date._days_before_month y m' + d'.
Proof.
  intros Hm Hlt Hm'. unfold date._days_before_month, date._days_in_month.
  assert (1 ≤ m ≤ 12) as Hm12 by lia. assert (1 ≤ m' ≤ 12) as Hm'12 by lia.
  month_cases m; month_cases m'; try lia;
    cbn; destruct (date._is_leap y); cbn; lia.
Qed.

Lemma date_ltb_toordinal (a b : date.t) :
  date.valid a → date.valid b →
  date_ltb a b = true → date.toordinal a < date.toordinal b.
Proof.
  destruct a as [ya ma da], b as [yb mb db].
  unfold date.valid, date_ltb, date.toordinal, date._ymd2ord. cbn.
  intros (Hya & Hma & Hda) (Hyb & Hmb & Hdb) Hlt.
  pose proof (day_of_year_bounds ya ma da Hma Hda).
  pose proof (day_of_year_bounds yb mb db Hmb Hdb).
  apply orb_true_iff in Hlt as [Hy%Z.ltb_lt|[->%Z.eqb_eq Hlt]%andb_true_iff].
  - pose proof (days_before_year_succ ya).
    pose proof (days_before_year_mono (ya + 1) yb ltac:(lia)). lia.
  - apply orb_true_iff in Hlt as [Hm%Z.ltb_lt|[->%Z.eqb_eq Hd%Z.ltb_lt]%andb_true_iff].
    + pose proof (day_of_year_month_lt yb ma da mb db). lia.
    + lia.
Qed.

(** The order of the dates is the order of their day numbers. *)
Lemma date_ltb_spec (a b : date.t) :
  date.valid a → date.valid b →
  date_ltb a b = true ↔ date.sub_days a b < 0.
Proof.
  intros Ha Hb. unfold date.sub_days. split.
  - intros ?%date_ltb_toordinal; [lia|done..].
  - intros Hlt. destruct (date_ltb a b) eqn:Hab; [done|exfalso].
    destruct (date_ltb b a) eqn:Hba.
    + apply date_ltb_toordinal in Hba; [lia|done..].
    + assert (a = b) as ->; [|lia].
      destruct a as [ya ma da], b as [yb mb db]. unfold date_ltb in *. cbn in *.
      destruct (Z.ltb_spec ya yb), (Z.ltb_spec yb ya), (Z.eqb_spec ya yb),
        (Z.eqb_spec yb ya), (Z.ltb_spec ma mb), (Z.ltb_spec mb ma),
        (Z.eqb_spec ma mb), (Z.eqb_spec mb ma), (Z.ltb_spec da db),
        (Z.ltb_spec db da); cbn in *; try discriminate; try lia.
      f_equal; lia.
Qed.

(** ** The birthdays of the coming week *)

Lemma replace_year_valid (d : date.t) (y : Z) :
  date.valid (with_year d y) → date.replace_year d y = ok (with_year d y).
Proof. intros Hv. by apply new_of_valid in Hv. Qed.

Lemma replace_year_ok (d c : date.t) (y : Z) :
  date.replace_year d y = ok c → c = with_year d y ∧ date.valid c.
Proof. apply new_valid. Qed.

Section Birthdays.
Context {rt : Runtime}.

(** Every exception of the loop is a [ValueError] of [replace]. *)
Lemma birthdays_loop_error (today : date.t) (records : list Record.t) :
  ∀ upcoming e,
    birthdays_loop today records upcoming = inl e → ∃ msg, e = ValueError msg.
Proof.
  induction records as [|r records IH]; intros upcoming e;
    cbn [birthdays_loop]; [done|].
  destruct (Record.birthday r); [|by apply IH]. cbv zeta.
  destruct (date.replace_year _ _) as [e1|c1] eqn:H1;
    [intros [= <-]; by eapply new_error|].
  destruct (_ <? 0).
  - destruct (date.replace_year _ (_ + 1)) as [e2|c2] eqn:H2;
      [intros [= <-]; by eapply new_error|].
    unfold ok. cbv beta iota. destruct (_ && _); apply IH.
  - unfold ok. cbv beta iota. destruct (_ && _); apply IH.
Qed.

Lemma birthdays_loop_selected (today : date.t) (records : list Record.t) :
  date.valid today →
  (∀ r b, r ∈ records → Record.birthday r = Some b →
          candidate_exists today (Birthday.value b)) →
  ∀ upcoming,
    birthdays_loop today records upcoming
    = ok (upcoming ++ birthday_lines (selected today records)).
Proof.
  intros Htoday. induction records as [|r records IH]; intros Hex upcoming.
  - cbn. by rewrite app_nil_r.
  - assert (∀ r' b, r' ∈ records → Record.birthday r' = Some b →
                    candidate_exists today (Birthday.value b)) as Hex'.
    { intros r' b Hr'. apply Hex. by right. }
    cbn [birthdays_loop]. unfold selected. cbn [mbind list_bind]. fold (selected today records).
    destruct (Record.birthday r) as [b|] eqn:Hb; [|by rewrite IH].
    destruct (Hex r b ltac:(left) Hb) as [Hfirst Hcand].
    cbv zeta. rewrite (replace_year_valid _ _ Hfirst).
    unfold ok. cbv beta iota.
    unfold candidate in Hcand |- *. cbv zeta in Hcand |- *.
    destruct (date_ltb (with_year (Birthday.value b) (date.year today)) today)
      eqn:Hlt.
    + apply date_ltb_spec in Hlt; [|done..].
      rewrite (proj2 (Z.ltb_lt _ _) Hlt).
      rewrite (replace_year_valid _ _ Hcand). unfold ok. cbv beta iota.
      unfold in_window. destruct (_ && _); rewrite IH by done; [|done].
      unfold birthday_lines. cbn. by rewrite <- app_assoc.
    + assert (¬ date.sub_days (with_year (Birthday.value b) (date.year today))
                  today < 0) as Hge.
      { intros Hneg. apply date_ltb_spec in Hneg; [congruence|done..]. }
      rewrite (proj2 (Z.ltb_ge _ _)) by lia. cbv beta iota.
      unfold in_window. destruct (_ && _); rewrite IH by done; [|done].
      unfold birthday_lines. cbn. by rewrite <- app_assoc.
Qed.

Lemma elem_of_selected (today : date.t) (records : list Record.t)
    (r : Record.t) (c : date.t) :
  (r, c) ∈ selected today records
  ↔ r ∈ records
    ∧ ∃ b, Record.birthday r = Some b
           ∧ c = candidate today (Birthday.value b)
           ∧ 0 ≤ date.sub_days c today ≤ 7.
Proof.
  unfold selected. rewrite list_elem_of_bind. split.
  - intros (r' & Hin & Hr'). destruct (Record.birthday r') as [b|] eqn:Hb;
      [|by apply elem_of_nil in Hin].
    cbv zeta in Hin. destruct (in_window _ _) eqn:Hw;
      [|by apply elem_of_nil in Hin].
    apply list_elem_of_singleton in Hin as [= -> ->].
    split; [done|]. exists b. split; [done|]. split; [done|].
    unfold in_window in Hw. apply andb_true_iff in Hw as [?%Z.leb_le ?%Z.leb_le].
    done.
  - intros (Hr & b & Hb & -> & Hlo & Hhi). exists r. split; [|done].
    rewrite Hb. cbv zeta. unfold in_window.
    rewrite !(proj2 (Z.leb_le _ _)) by done. left.
Qed.

Lemma selected_sublist (today : date.t) (records : list Record.t) :
  (selected today records).*1 `sublist_of` records.
Proof.
  induction records as [|r records IH]; [done|].
  unfold selected. cbn [mbind list_bind]. fold (selected today records).
  destruct (Record.birthday r); [|by apply sublist_cons].
  cbv zeta. destruct (in_window _ _); cbn;
    [by apply sublist_skip|by apply sublist_cons].
Qed.
End Birthdays.

Lemma birthdays_selected {rt : Runtime} (clock : datetime.t) (args : list str)
    (book : AddressBook.t) :
  date.valid (datetime.date clock) →
  (∀ r b, r ∈ AddressBook.values book → Record.birthday r = Some b →
          candidate_exists (datetime.date clock) (Birthday.value b)) →
  birthdays clock args book
  = (ok (birthdays_answer
           (selected (datetime.date clock) (AddressBook.values book))), book).
Proof.
  intros Htoday Hex. unfold birthdays, input_error, birthdays_body. cbv zeta.
  rewrite (birthdays_loop_selected _ _ Htoday Hex []). cbn [app].
  unfold ok. cbv beta iota.
  destruct (selected _ _) as [|rc l]; [reflexivity|].
  by rewrite bool_decide_eq_false_2.
Qed.

(** C1 (as amended). Let every record with a birthday have a candidate that
    can be formed: the birthday in today's year, and the candidate itself
    (that day, or the same day of the next year when that day is strictly
    before today), are dates of the calendar. Then the loop of [birthdays]
    yields one line per reported record; a record is reported with the
    date [c] if and only if it has a birthday, [c] is its candidate and [c]
    is between 0 and 7 days after today; records without a birthday are not
    reported; the reported records come in the order of the book; and the
    handler answers with these lines, or with its fixed text when there are
    none, and leaves the book alone. With today 10.03.2024 a birthday of
    12.03.1990 is reported for 12.03.2024 and one of 05.03.1990 is not;
    with today 30.12.2024 a birthday of 02.01.1995 is reported for
    02.01.2025. *)
Theorem birthdays_spec {rt : Runtime} :
  (∀ (clock : datetime.t) (args : list str) (book : AddressBook.t),
     let today := datetime.date clock in
     let records := AddressBook.values book in
     date.valid today →
     (∀ r b, r ∈ records → Record.birthday r = Some b →
             candidate_exists today (Birthday.value b)) →
     birthdays_loop today records [] = ok (birthday_lines (selected today records))
     ∧ (∀ r c, (r, c) ∈ selected today records
               ↔ r ∈ records
                 ∧ ∃ b, Record.birthday r = Some b
                        ∧ c = candidate today (Birthday.value b)
                        ∧ 0 ≤ date.sub_days c today ≤ 7)
     ∧ (∀ r c, (r, c) ∈ selected today records → Record.birthday r ≠ None)
     ∧ (selected today records).*1 `sublist_of` records
     ∧ birthdays clock args book
       = (ok (birthdays_answer (selected today records)), book))
  ∧ (let ann := contact (py "Ann") (date.mk 1990 3 12) in
     selected (date.mk 2024 3 10) [ann] = [(ann, date.mk 2024 3 12)]
     ∧ birthdays (clock_on (date.mk 2024 3 10)) [] [(py "Ann", ann)]
       = (ok (py "Ann: Tuesday (12.03.2024)"), [(py "Ann", ann)]))
  ∧ (let ann := contact (py "Ann") (date.mk 1990 3 5) in
     selected (date.mk 2024 3 10) [ann] = []
     ∧ birthdays (clock_on (date.mk 2024 3 10)) [] [(py "Ann", ann)]
       = (ok (py "No birthdays next week"), [(py "Ann", ann)]))
  ∧ (let ann := contact (py "Ann") (date.mk 1995 1 2) in
     selected (date.mk 2024 12 30) [ann] = [(ann, date.mk 2025 1 2)]
     ∧ birthdays (clock_on (date.mk 2024 12 30)) [] [(py "Ann", ann)]
       = (ok (py "Ann: Thursday (02.01.2025)"), [(py "Ann", ann)])).
Proof.
  split; [|by repeat split].
  intros clock args book today records Htoday Hex.
  split; [|split; [|split; [|split]]].
  - by rewrite (birthdays_loop_selected _ _ Htoday Hex []).
  - apply elem_of_selected.
  - intros r c (_ & b & -> & _)%elem_of_selected. done.
  - apply selected_sublist.
  - by apply birthdays_selected.
Qed.

Lemma birthdays_spec_witness :
  let ann := contact (py "Ann") (date.mk 1990 3 12) in
  let bob := Record.mk (Name.mk (py "Bob")) [] None in
  let eve := contact (py "Eve") (date.mk 2001 3 17) in
  let book := [(py "Ann", ann); (py "Bob", bob); (py "Eve", eve)] in
  birthdays (rt:=excerpt_runtime) (clock_on (date.mk 2024 3 10)) [] book
  = (ok (py "Ann: Tuesday (12.03.2024)" ++ [10%N]
         ++ py "Eve: Sunday (17.03.2024)"), book).
Proof.
  intros ann bob eve book.
  assert (date.valid (datetime.date (clock_on (date.mk 2024 3 10)))) as Htoday
    by valid_date.
  assert (∀ r b, r ∈ AddressBook.values book → Record.birthday r = Some b →
                 candidate_exists (datetime.date (clock_on (date.mk 2024 3 10)))
                   (Birthday.value b)) as Hex.
  { intros r b Hr Hb.
    apply elem_of_cons in Hr as [->|Hr]; [injection Hb as <-; split; valid_date|].
    apply elem_of_cons in Hr as [->|Hr]; [discriminate Hb|].
    apply list_elem_of_singleton in Hr as ->.
    injection Hb as <-. split; valid_date. }
  exact (proj2 (proj2 (proj2 (proj2
           (proj1 (birthdays_spec (rt:=excerpt_runtime))
              (clock_on (date.mk 2024 3 10)) [] book Htoday Hex))))).
Defined.

(** C1 (as stated) fails: on 30.12.9999 the candidate of a birthday that is
    already past would lie in the year 10000, which [date] cannot hold;
    [replace] raises, and the answer is the text of that exception. Bob's
    candidate is the next day, yet Bob is not reported. *)
Lemma birthdays_fails_in_last_year :
  let today := date.mk 9999 12 30 in
  let ann := contact (py "Ann") (date.mk 1995 1 2) in
  let bob := contact (py "Bob") (date.mk 1990 12 31) in
  let book := [(py "Ann", ann); (py "Bob", bob)] in
  date.valid today
  ∧ candidate today (date.mk 1990 12 31) = date.mk 9999 12 31
  ∧ date.valid (date.mk 9999 12 31)
  ∧ date.sub_days (date.mk 9999 12 31) today = 1
  ∧ birthdays_loop (rt:=excerpt_runtime) today (AddressBook.values book) []
    = raise (ValueError (py "year 10000 is out of range"))
  ∧ birthdays (rt:=excerpt_runtime) (clock_on today) [] book
    = (ok (py "year 10000 is out of range"), book).
Proof.
  intros today ann bob book.
  split; [valid_date|]. split; [reflexivity|]. split; [valid_date|].
  split; [reflexivity|]. split; reflexivity.
Qed.

(** ** The clock *)

(** C2 (as amended). [birthdays] takes the day from the clock. Its answer
    is the same for two readings of the clock on the same day, whatever
    the arguments of the command; it is always a text, never an exception;
    and the book is left as it was. *)
Theorem birthdays_depends_on_book_and_day {rt : Runtime}
    (clock1 clock2 : datetime.t) (args1 args2 : list str) (book : AddressBook.t) :
  datetime.date clock1 = datetime.date clock2 →
  birthdays clock1 args1 book = birthdays clock2 args2 book
  ∧ (∃ text, birthdays clock1 args1 book = (ok text, book)).
Proof.
  intros Hday. unfold birthdays, input_error, birthdays_body. cbv zeta.
  rewrite Hday. split; [done|].
  destruct (birthdays_loop _ _ _) as [e|upcoming] eqn:Hloop.
  - apply birthdays_loop_error in Hloop as [msg ->]. eauto.
  - destruct (bool_decide _); eauto.
Qed.

Lemma birthdays_depends_on_book_and_day_witness :
  let book := [(py "Ann", contact (py "Ann") (date.mk 1990 3 12))] in
  birthdays (rt:=excerpt_runtime)
    (datetime.mk (date.mk 2024 3 10) 9 30 0 0) [] book
  = birthdays (rt:=excerpt_runtime)
      (datetime.mk (date.mk 2024 3 10) 23 59 59 0) [py "ignored"] book.
Proof.
  intros book.
  exact (proj1 (birthdays_depends_on_book_and_day (rt:=excerpt_runtime)
                  (datetime.mk (date.mk 2024 3 10) 9 30 0 0)
                  (datetime.mk (date.mk 2024 3 10) 23 59 59 0)
                  [] [py "ignored"] book eq_refl)).
Defined.

(** C2 (as stated) fails: the day is no parameter of [birthdays]; with the
    same arguments and the same book the answer changes with the clock. *)
Lemma birthdays_reads_the_clock :
  let book := [(py "Ann", contact (py "Ann") (date.mk 1990 3 12))] in
  birthdays (rt:=excerpt_runtime) (clock_on (date.mk 2024 3 10)) [] book
  = (ok (py "Ann: Tuesday (12.03.2024)"), book)
  ∧ birthdays (rt:=excerpt_runtime) (clock_on (date.mk 2024 3 20)) [] book
    = (ok (py "No birthdays next week"), book)
  ∧ birthdays (rt:=excerpt_runtime) (clock_on (date.mk 2024 3 10)) [] book
    ≠ birthdays (rt:=excerpt_runtime) (clock_on (date.mk 2024 3 20)) [] book.
Proof.
  intros book. split; [reflexivity|]. split; [reflexivity|].
  by vm_compute.
Qed.

(** ** Birthdays on 29 February *)

Lemma leap_succ (y : Z) : date._is_leap y = true → date._is_leap (y + 1) = false.
Proof.
  unfold date._is_leap. intros [Hy%Z.eqb_eq _]%andb_true_iff.
  apply andb_false_iff. left. apply Z.eqb_neq.
  Z.div_mod_to_equations. lia.
Qed.

Lemma new_leap_day_common_year (y : Z) :
  date._is_leap y = false → ∃ msg, date.new y 2 29 = raise (ValueError msg).
Proof.
  intros Hy. unfold date.new. destruct (negb _); [eauto|].
  cbn. unfold date._days_in_month. rewrite Hy. cbn. eauto.
Qed.

Lemma new_leap_day_valid (y : Z) (c : date.t) :
  date.new y 2 29 = ok c → date._is_leap y = true.
Proof.
  intros [-> (_ & _ & Hd)]%new_valid. revert Hd. cbn.
  unfold date._days_in_month. destruct (date._is_leap y); [done|]. cbn. lia.
Qed.

Section LeapDay.
Context {rt : Runtime}.

Lemma birthdays_loop_leap_day (today : date.t) (records : list Record.t)
    (r : Record.t) (b : Birthday.t) :
  r ∈ records → Record.birthday r = Some b →
  date.month (Birthday.value b) = 2 → date.day (Birthday.value b) = 29 →
  date._is_leap (date.year today) = false
  ∨ date.sub_days (date.mk (date.year today) 2 29) today < 0 →
  ∀ upcoming,
    ∃ msg, birthdays_loop today records upcoming = raise (ValueError msg).
Proof.
  intros Hr Hb Hmonth Hday Hyear.
  induction records as [|r0 records IH]; intros upcoming;
    [by apply elem_of_nil in Hr|].
  destruct (birthdays_loop today (r0 :: records) upcoming) as [e|lines] eqn:Hrun.
  { apply birthdays_loop_error in Hrun as [msg ->]. eauto. }
  exfalso. revert Hrun. cbn [birthdays_loop].
  apply elem_of_cons in Hr as [<-|Hr].
  - rewrite Hb. cbv zeta. unfold date.replace_year. rewrite Hmonth, Hday.
    destruct (date.new (date.year today) 2 29) as [e1|c1] eqn:H1; [done|].
    pose proof (new_leap_day_valid _ _ H1) as Hleap.
    destruct Hyear as [Hcommon|Hpast]; [congruence|].
    apply new_valid in H1 as [-> _].
    rewrite (proj2 (Z.ltb_lt _ _) Hpast).
    destruct (new_leap_day_common_year _ (leap_succ _ Hleap)) as [msg ->].
    done.
  - assert (∀ acc, birthdays_loop today records acc ≠ inr lines) as Hrest.
    { intros acc. destruct (IH Hr acc) as [msg ->]. done. }
    destruct (Record.birthday r0); [|by apply Hrest]. cbv zeta.
    destruct (date.replace_year _ _) as [e1|c1]; [done|].
    destruct (_ <? 0).
    + destruct (date.replace_year _ (_ + 1)) as [e2|c2]; [done|].
      unfold ok. cbv beta iota. destruct (_ && _); apply Hrest.
    + unfold ok. cbv beta iota. destruct (_ && _); apply Hrest.
Qed.
End LeapDay.

(** C5 (not met by the code). When some record has its birthday on
    29 February and the candidate year is not a leap year (today's year is
    not one, or its 29 February is already past, so that the candidate
    falls into the next year), [replace] raises [ValueError]: the loop
    ends there, no candidate is adjusted, and the handler answers with
    the text of the exception instead of the birthdays. *)
Theorem birthdays_leap_day_raises {rt : Runtime} (clock : datetime.t)
    (args : list str) (book : AddressBook.t) (r : Record.t) (b : Birthday.t) :
  let today := datetime.date clock in
  r ∈ AddressBook.values book → Record.birthday r = Some b →
  date.month (Birthday.value b) = 2 → date.day (Birthday.value b) = 29 →
  date._is_leap (date.year today) = false
  ∨ date.sub_days (date.mk (date.year today) 2 29) today < 0 →
  ∃ msg,
    birthdays_loop today (AddressBook.values book) [] = raise (ValueError msg)
    ∧ birthdays clock args book = (ok msg, book).
Proof.
  intros today Hr Hb Hmonth Hday Hyear.
  destruct (birthdays_loop_leap_day today _ r b Hr Hb Hmonth Hday Hyear [])
    as [msg Hrun].
  exists msg. split; [done|].
  unfold birthdays, input_error, birthdays_body. cbv zeta.
  fold today. by rewrite Hrun.
Qed.

Lemma birthdays_leap_day_raises_witness :
  let ann := contact (py "Ann") (date.mk 2000 2 29) in
  let bob := contact (py "Bob") (date.mk 1990 3 2) in
  let book := [(py "Ann", ann); (py "Bob", bob)] in
  ∃ msg,
    birthdays_loop (rt:=excerpt_runtime) (date.mk 2023 3 1)
      (AddressBook.values book) [] = raise (ValueError msg)
    ∧ birthdays (rt:=excerpt_runtime) (clock_on (date.mk 2023 3 1)) [] book
      = (ok msg, book).
Proof.
  intros ann bob book.
  apply (birthdays_leap_day_raises (rt:=excerpt_runtime)
           (clock_on (date.mk 2023 3 1)) [] book ann
           (Birthday.mk (date.mk 2000 2 29))).
  - left.
  - reflexivity.
  - reflexivity.
  - reflexivity.
  - left. reflexivity.
Defined.

(** The run of C5 in full: the answer on 01.03.2023 for a book with a
    birthday on 29.02.2000 and one on 02.03.1990, which is the next day. *)
Example birthdays_leap_day_answer :
  let book := [(py "Ann", contact (py "Ann") (date.mk 2000 2 29));
               (py "Bob", contact (py "Bob") (date.mk 1990 3 2))] in
  birthdays (rt:=excerpt_runtime) (clock_on (date.mk 2023 3 1)) [] book
  = (ok (py "day is out of range for month"), book).
Proof. reflexivity. Qed.

(** In a leap year, after 29 February, the candidate falls into the next
    year and the same happens. *)
Example birthdays_leap_day_answer_after_leap_day :
  let book := [(py "Ann", contact (py "Ann") (date.mk 2000 2 29))] in
  birthdays (rt:=excerpt_runtime) (clock_on (date.mk 2024 3 10)) [] book
  = (ok (py "day is out of range for month"), book).
Proof. reflexivity. Qed.

(** Up to 29 February of a leap year the candidate exists. *)
Example birthdays_leap_day_in_leap_year :
  let book := [(py "Ann", contact (py "Ann") (date.mk 2000 2 29))] in
  birthdays (rt:=excerpt_runtime) (clock_on (date.mk 2024 2 25)) [] book
  = (ok (py "Ann: Thursday (29.02.2024)"), book).
Proof. reflexivity. Qed.

(** * Further properties of the code *)

(** ** The book as a mapping *)

Section DictLaws.
Context {V : Type}.
Implicit Types (d : dict.t V) (k : str) (v : V).

Lemma dict_get_set_eq d k v : dict.get (dict.set k v d) k = Some v.
Proof.
  induction d as [|[k' v'] d IH]; cbn.
  - by rewrite bool_decide_eq_true_2.
  - destruct (decide (k' = k)) as [Hk|Hk].
    + rewrite (bool_decide_eq_true_2 _ Hk). cbn.
      by rewrite (bool_decide_eq_true_2 _ Hk).
    + rewrite (bool_decide_eq_false_2 _ Hk). cbn.
      by rewrite (bool_decide_eq_false_2 _ Hk).
Qed.

Lemma dict_get_set_ne d k k1 v : k ≠ k1 → dict.get (dict.set k v d) k1 = dict.get d k1.
Proof.
  intros Hne. induction d as [|[k' v'] d IH]; cbn.
  - by rewrite bool_decide_eq_false_2.
  - destruct (decide (k' = k)) as [Hk|Hk].
    + rewrite (bool_decide_eq_true_2 _ Hk). cbn. subst k'.
      by rewrite !(bool_decide_eq_false_2 (k = k1)).
    + rewrite (bool_decide_eq_false_2 _ Hk). cbn. by rewrite IH.
Qed.

Lemma dict_get_del_ne d k k1 : k ≠ k1 → dict.get (dict.del k d) k1 = dict.get d k1.
Proof.
  intros Hne. induction d as [|[k' v'] d IH]; cbn; [done|].
  destruct (decide (k' = k)) as [Hk|Hk].
  - rewrite (bool_decide_eq_true_2 _ Hk). subst k'.
    by rewrite (bool_decide_eq_false_2 (k = k1)).
  - rewrite (bool_decide_eq_false_2 _ Hk). cbn. by rewrite IH.
Qed.

Lemma dict_get_del_eq d k : NoDup (dict.keys d) → dict.get (dict.del k d) k = None.
Proof.
  induction d as [|[k' v'] d IH]; cbn; [done|].
  intros [Hk' Hd]%list.NoDup_cons.
  destruct (decide (k' = k)) as [Hk|Hk].
  - rewrite (bool_decide_eq_true_2 _ Hk). subst k'. by apply dict_get_none.
  - rewrite (bool_decide_eq_false_2 _ Hk). cbn.
    rewrite (bool_decide_eq_false_2 _ Hk). by apply IH.
Qed.

(** Assigning the value that is there changes nothing. *)
Lemma dict_set_same d k v : dict.get d k = Some v → dict.set k v d = d.
Proof.
  induction d as [|[k' v'] d IH]; cbn; [done|].
  destruct (decide (k' = k)) as [Hk|Hk].
  - rewrite !(bool_decide_eq_true_2 _ Hk). by intros [= ->].
  - rewrite !(bool_decide_eq_false_2 _ Hk). intros ?. by rewrite IH.
Qed.

(** Assigning to a key that is there replaces the entry at its position. *)
Lemma dict_set_present d k v v0 :
  dict.get d k = Some v0 →
  ∃ i, d !! i = Some (k, v0) ∧ dict.set k v d = <[i := (k, v)]> d.
Proof.
  induction d as [|[k' v'] d IH]; cbn; [done|].
  destruct (decide (k' = k)) as [Hk|Hk].
  - rewrite !(bool_decide_eq_true_2 _ Hk). intros [= ->]. subst k'. by exists 0%nat.
  - rewrite !(bool_decide_eq_false_2 _ Hk). intros Hget.
    destruct (IH Hget) as (i & Hi & ->). by exists (S i).
Qed.

(** Deleting a key that is there removes the entry at its position. *)
Lemma dict_del_present d k v0 :
  dict.get d k = Some v0 →
  ∃ i, d !! i = Some (k, v0) ∧ dict.del k d = delete i d.
Proof.
  induction d as [|[k' v'] d IH]; cbn; [done|].
  destruct (decide (k' = k)) as [Hk|Hk].
  - rewrite !(bool_decide_eq_true_2 _ Hk). intros [= ->]. subst k'. by exists 0%nat.
  - rewrite !(bool_decide_eq_false_2 _ Hk). intros Hget.
    destruct (IH Hget) as (i & Hi & ->). by exists (S i).
Qed.
End DictLaws.

(** X1. In a book whose keys are unique, [find] after [add_record] returns
    the record just added under its name and what it returned before
    under every other name; [find] after [delete] returns [None] for the
    deleted name and what it returned before for every other name; and
    [delete] of a name that is absent changes nothing. *)
Theorem address_book_find_after_update (book : AddressBook.t)
    (record : Record.t) (name : str) :
  NoDup (dict.keys book) →
  let added := (AddressBook.add_record record book).2 in
  let deleted := (AddressBook.delete name book).2 in
  (AddressBook.find (Name.value (Record.name record)) added).1 = ok (Some record)
  ∧ (∀ other, other ≠ Name.value (Record.name record) →
       (AddressBook.find other added).1 = (AddressBook.find other book).1)
  ∧ (AddressBook.find name deleted).1 = ok None
  ∧ (∀ other, other ≠ name →
       (AddressBook.find other deleted).1 = (AddressBook.find other book).1)
  ∧ ((AddressBook.find name book).1 = ok None →
     AddressBook.delete name book = (ok tt, book)).
Proof.
  intros Hnodup added deleted.
  assert (deleted = if dict.contains book name then dict.del name book else book)
    as Hdel.
  { unfold deleted, AddressBook.delete. by destruct (dict.contains book name). }
  unfold AddressBook.find. cbn [fst snd].
  split; [|split; [|split; [|split]]].
  - unfold added. cbn. by rewrite dict_get_set_eq.
  - intros other Hother. unfold added. cbn. by rewrite dict_get_set_ne.
  - rewrite Hdel. unfold dict.contains. case_bool_decide as Hin.
    + by rewrite dict_get_del_eq.
    + destruct (dict.get book name) eqn:Hget; [|done]. exfalso. eauto.
  - intros other Hother. rewrite Hdel.
    destruct (dict.contains book name); [|done]. by rewrite dict_get_del_ne.
  - intros [= Hget]. unfold AddressBook.delete, dict.contains.
    rewrite Hget. by rewrite bool_decide_eq_false_2 by by intros [? ?].
Qed.

Lemma address_book_find_after_update_witness :
  let ann := Record.mk (Name.mk (py "Ann")) [] None in
  let book := [(py "Bob", Record.mk (Name.mk (py "Bob")) [] None)] in
  (AddressBook.find (py "Ann") (AddressBook.add_record ann book).2).1
  = ok (Some ann).
Proof.
  intros ann book.
  assert (NoDup (dict.keys book)) as Hnodup.
  { apply NoDup_singleton. }
  exact (proj1 (address_book_find_after_update book ann (py "Bob") Hnodup)).
Defined.

(** X2. The order of the book. [add_record] puts a record with a new name
    last; for a name that is there it replaces the record at its position
    and moves nothing; [delete] takes out the record at its position and
    keeps the order of the others. *)
Theorem address_book_order (book : AddressBook.t) (record old : Record.t)
    (name : str) :
  ((AddressBook.find (Name.value (Record.name record)) book).1 = ok None →
   AddressBook.values (AddressBook.add_record record book).2
   = AddressBook.values book ++ [record])
  ∧ ((AddressBook.find (Name.value (Record.name record)) book).1 = ok (Some old) →
     ∃ i, AddressBook.values book !! i = Some old
          ∧ dict.keys book !! i = Some (Name.value (Record.name record))
          ∧ AddressBook.values (AddressBook.add_record record book).2
            = <[i := record]> (AddressBook.values book)
          ∧ dict.keys (AddressBook.add_record record book).2 = dict.keys book)
  ∧ ((AddressBook.find name book).1 = ok (Some old) →
     ∃ i, AddressBook.values book !! i = Some old
          ∧ dict.keys book !! i = Some name
          ∧ AddressBook.values (AddressBook.delete name book).2
            = delete i (AddressBook.values book)
          ∧ dict.keys (AddressBook.delete name book).2 = delete i (dict.keys book)).
Proof.
  unfold AddressBook.find, AddressBook.values, dict.values, dict.keys.
  cbn [fst snd]. split; [|split].
  - intros [= Hget]. cbn. rewrite (dict_set_absent _ _ _ Hget).
    by rewrite fmap_app.
  - intros [= Hget]. cbn.
    destruct (dict_set_present book _ record old Hget) as (i & Hi & ->).
    unfold AddressBook.t, dict.t in *.
    assert (book.*2 !! i = Some old) as Hv by by rewrite list_lookup_fmap, Hi.
    assert (book.*1 !! i = Some (Name.value (Record.name record))) as Hk
      by by rewrite list_lookup_fmap, Hi.
    exists i. split; [done|]. split; [done|]. rewrite !list_fmap_insert. cbn.
    split; [done|]. by apply list_insert_id.
  - intros [= Hget]. unfold AddressBook.delete, dict.contains.
    rewrite bool_decide_eq_true_2 by eauto. cbn.
    destruct (dict_del_present book _ old Hget) as (i & Hi & ->).
    unfold AddressBook.t, dict.t in *.
    assert (book.*2 !! i = Some old) as Hv by by rewrite list_lookup_fmap, Hi.
    assert (book.*1 !! i = Some name) as Hk by by rewrite list_lookup_fmap, Hi.
    exists i. by rewrite !list_fmap_delete.
Qed.

Lemma address_book_order_witness :
  let ann := Record.mk (Name.mk (py "Ann")) [] None in
  let bob := Record.mk (Name.mk (py "Bob")) [] None in
  AddressBook.values (AddressBook.add_record ann [(py "Bob", bob)]).2 = [bob; ann].
Proof.
  intros ann bob.
  exact (proj1 (address_book_order [(py "Bob", bob)] ann ann (py "Bob")) eq_refl).
Defined.

(** ** Adding, removing and finding phones *)

Lemma find_phone_in_filter_ne (ps : list Phone.t) (p q : str) :
  q ≠ p →
  Record.find_phone_in (filter (λ x, Phone.value x ≠ p) ps) q
  = Record.find_phone_in ps q.
Proof.
  intros Hne. induction ps as [|x ps IH]; [done|].
  destruct (decide (Phone.value x = p)) as [Hx|Hx].
  - rewrite filter_cons_False by (intros ?; done). cbn.
    rewrite bool_decide_eq_false_2 by congruence. done.
  - rewrite filter_cons_True by done. cbn. by rewrite IH.
Qed.

Lemma ten_digits_nonempty {rt : Runtime} (p : str) : ten_digits p → p ≠ [].
Proof. intros [Hlen _] ->. discriminate. Qed.

Lemma add_phone_ok {rt : Runtime} (p : str) (self : Record.t) :
  ten_digits p →
  Record.add_phone p self
  = (ok tt, Record.set_phones (Record.phones self ++ [Phone.mk p]) self).
Proof.
  intros Hp. unfold Record.add_phone, bind, lift.
  by rewrite (Phone_init_ok p Hp).
Qed.

(** X3. [add_phone] with a valid phone appends it behind the stored
    phones, after which [find_phone] finds a phone of that value, and
    [remove_phone] of a phone that was not stored before brings the record
    back to what it was; with a text that is not a valid phone it raises
    and the record is unchanged. *)
Theorem add_phone_spec {rt : Runtime} (self : Record.t) (p : str) :
  (ten_digits p →
   let self' := Record.set_phones (Record.phones self ++ [Phone.mk p]) self in
   Record.add_phone p self = (ok tt, self')
   ∧ (∃ q, Record.find_phone self' p = Some q ∧ Phone.value q = p)
   ∧ ((∀ q, q ∈ Record.phones self → Phone.value q ≠ p) →
      Record.remove_phone p self' = (ok tt, self)))
  ∧ (¬ ten_digits p → Record.add_phone p self = (raise phone_error, self)).
Proof.
  split; [|apply add_phone_raise].
  intros Hp self'. split; [by apply add_phone_ok|]. split.
  - apply (find_phone_in_present _ p (Phone.mk p)); [|done].
    apply elem_of_app. right. left.
  - intros Habsent. unfold Record.remove_phone, modify, self'. cbn.
    rewrite list.filter_app, filter_all_id by done.
    rewrite filter_cons_False by (cbn; intros ?; done).
    rewrite filter_nil, app_nil_r. unfold Record.set_phones. cbn.
    by rewrite Record_eta.
Qed.

Lemma add_phone_spec_witness :
  let ann := Record.mk (Name.mk (py "Ann")) [Phone.mk (py "1111111111")] None in
  Record.add_phone (rt:=excerpt_runtime) (py "0123456789") ann
  = (ok tt, Record.set_phones
              [Phone.mk (py "1111111111"); Phone.mk (py "0123456789")] ann).
Proof.
  intros ann.
  assert (ten_digits (rt:=excerpt_runtime) (py "0123456789")) as Hp.
  { split; [reflexivity|]. intros c Hc.
    apply (proj1 (forallb_elem_of char_isdigit (py "0123456789")));
      [reflexivity | exact Hc]. }
  exact (proj1 (proj1 (add_phone_spec (rt:=excerpt_runtime) ann (py "0123456789"))
                  Hp)).
Defined.

(** X4. After [remove_phone(p)], [find_phone(p)] returns [None], and
    [find_phone] of any other phone returns what it returned before. *)
Theorem find_phone_after_remove (self : Record.t) (p : str) :
  let self' := (Record.remove_phone p self).2 in
  Record.find_phone self' p = None
  ∧ ∀ q, q ≠ p → Record.find_phone self' q = Record.find_phone self q.
Proof.
  cbn. unfold Record.find_phone. cbn. split.
  - apply find_phone_in_none. by intros q [? ?]%list_elem_of_filter.
  - intros q Hq. by apply find_phone_in_filter_ne.
Qed.

Lemma find_phone_after_remove_witness :
  let r := Record.mk (Name.mk (py "Ann"))
             [Phone.mk (py "1111111111"); Phone.mk (py "2222222222")] None in
  py "2222222222" ≠ py "1111111111"
  ∧ Record.find_phone (Record.remove_phone (py "1111111111") r).2 (py "2222222222")
    = Record.find_phone r (py "2222222222").
Proof.
  intros r.
  assert (py "2222222222" ≠ py "1111111111") as Hne by (by vm_compute).
  split; [exact Hne|].
  exact (proj2 (find_phone_after_remove r (py "1111111111")) (py "2222222222") Hne).
Defined.

(** ** The handlers that change the book *)

Lemma on_record_ok {A} (key : str) (record record' : Record.t)
    (method : M Record.t A) (a : A) (book : AddressBook.t) :
  method record = (inr a, record') →
  AddressBook.on_record key record method book
  = (inr a, dict.set key record' book).
Proof. unfold AddressBook.on_record. by intros ->. Qed.

Lemma add_contact_added {rt : Runtime} (book : AddressBook.t)
    (name phone : str) (more : list str) :
  ten_digits phone → dict.get book name = None → name ≠ [] →
  add_contact (name :: phone :: more) book
  = (ok (py "Contact added."),
     book ++ [(name, Record.mk (Name.mk name) [Phone.mk phone] None)]).
Proof.
  intros Hphone Hnew Hname.
  pose proof (ten_digits_nonempty phone Hphone) as Hne.
  unfold add_contact, input_error, add_contact_body.
  unfold bind at 1. unfold AddressBook.find at 1. rewrite Hnew.
  unfold bind at 1. unfold bind at 1. unfold lift, Record.__init__, Name.__init__.
  rewrite (bool_decide_eq_false_2 (name = [])) by done.
  unfold bind at 1. unfold AddressBook.add_record, modify, ret. cbn.
  rewrite (bool_decide_eq_true_2 (phone ≠ [])) by done.
  unfold bind at 1.
  rewrite (on_record_ok name _ _ _ tt _ (add_phone_ok phone _ Hphone)). cbn.
  rewrite (dict_set_absent book name) by done.
  by rewrite dict_set_last by done.
Qed.

(** X5. [add_contact] with a valid phone: for a name that is not empty and
    not in the book it answers "Contact added." and the book gets a new
    last record with that one phone; for a name that is in the book it
    answers "Contact updated." and the phone is appended to that record,
    which keeps its place; arguments after the second are ignored. *)
Theorem add_contact_valid_phone {rt : Runtime} (book : AddressBook.t)
    (name phone : str) (more : list str) :
  ten_digits phone →
  (dict.get book name = None → name ≠ [] →
   add_contact (name :: phone :: more) book
   = (ok (py "Contact added."),
      book ++ [(name, Record.mk (Name.mk name) [Phone.mk phone] None)]))
  ∧ (∀ record, dict.get book name = Some record →
       add_contact (name :: phone :: more) book
       = (ok (py "Contact updated."),
          dict.set name
            (Record.set_phones (Record.phones record ++ [Phone.mk phone]) record)
            book)).
Proof.
  intros Hphone. pose proof (ten_digits_nonempty phone Hphone) as Hne. split.
  - intros Hnew Hname. by apply add_contact_added.
  - intros record Hget.
    unfold add_contact, input_error, add_contact_body.
    unfold bind at 1. unfold AddressBook.find at 1. rewrite Hget.
    unfold bind at 1. unfold ret. cbn.
    rewrite (bool_decide_eq_true_2 (phone ≠ [])) by done.
    unfold bind at 1.
    by rewrite (on_record_ok name _ _ _ tt _ (add_phone_ok phone _ Hphone)).
Qed.

Lemma add_contact_valid_phone_witness :
  add_contact (rt:=excerpt_runtime) [py "Ann"; py "0123456789"; py "extra"]
    AddressBook.empty
  = (ok (py "Contact added."),
     [(py "Ann", Record.mk (Name.mk (py "Ann")) [Phone.mk (py "0123456789")] None)]).
Proof.
  assert (ten_digits (rt:=excerpt_runtime) (py "0123456789")) as Hp.
  { split; [reflexivity|]. intros c Hc.
    apply (proj1 (forallb_elem_of char_isdigit (py "0123456789")));
      [reflexivity | exact Hc]. }
  exact (proj1 (add_contact_valid_phone (rt:=excerpt_runtime) AddressBook.empty
                  (py "Ann") (py "0123456789") [py "extra"] Hp)
           eq_refl ltac:(by vm_compute)).
Defined.



(** An exception of [edit_phone] leaves the record as it was. *)
Lemma edit_phone_atomic_on_failure_aux {rt : Runtime} (self self' : Record.t)
    (old new : str) (e : exn) :
  Record.edit_phone old new self = (inl e, self') → self' = self.
Proof. unfold Record.edit_phone, bind. cbn. apply edit_phone_from_raise. Qed.

(** [edit_phone] raises nothing but the two errors of the program. *)
Lemma edit_phone_errors {rt : Runtime} (self self' : Record.t)
    (old new : str) (e : exn) :
  Record.edit_phone old new self = (inl e, self') →
  ∃ msg, e = ValueError msg ∨ e = NumberVerificationError msg.
Proof.
  unfold Record.edit_phone, bind. cbn.
  generalize 0%nat. induction (Record.phones self) as [|p ps IH]; intros i; cbn.
  - unfold throw. intros [= <- _]. eauto.
  - case_bool_decide; [|apply IH].
    unfold bind, lift, modify, Phone.__init__.
    destruct (_ || _); [|done]. intros [= <- _]. eauto.
Qed.

Lemma change_contact_present {rt : Runtime} (book : AddressBook.t)
    (name old new : str) (record : Record.t) :
  dict.get book name = Some record →
  change_contact [name; old; new] book
  = match Record.edit_phone old new record with
    | (inr _, record') => (ok (py "Phone number updated."), dict.set name record' book)
    | (inl e, _) => (ok (str_of_exn e), book)
    end.
Proof.
  intros Hget. unfold change_contact, input_error, change_contact_body.
  unfold bind, AddressBook.find, AddressBook.on_record, ret, ok.
  rewrite Hget. cbv beta iota.
  destruct (Record.edit_phone old new record) as [[e|[]] record'] eqn:Hedit;
    [|done].
  pose proof (edit_phone_errors _ _ _ _ _ Hedit) as [msg [-> | ->]];
    apply edit_phone_atomic_on_failure_aux in Hedit as ->;
    by rewrite (dict_set_same _ _ _ Hget).
Qed.

(** X7. [change_contact] with a name that is in the book, an old phone
    that is stored and a valid new phone answers "Phone number updated."
    and replaces the first stored copy of the old phone in that record;
    with an unknown name it answers "Contact not found"; and whatever the
    arguments, the book is changed only when the answer is "Phone number
    updated.". *)
Theorem change_contact_spec {rt : Runtime} (book : AddressBook.t)
    (args : list str) :
  (∀ name old new record before p after,
     args = [name; old; new] → dict.get book name = Some record →
     first_match (Record.phones record) old before p after → ten_digits new →
     change_contact args book
     = (ok (py "Phone number updated."),
        dict.set name
          (Record.set_phones (before ++ Phone.mk new :: after) record) book))
  ∧ (∀ name old new,
       args = [name; old; new] → dict.get book name = None →
       change_contact args book = (ok (py "Contact not found"), book))
  ∧ ((change_contact args book).2 = book
     ∨ (change_contact args book).1 = ok (py "Phone number updated.")).
Proof.
  split; [|split].
  - intros name old new record before p after -> Hget Hfm Hnew.
    rewrite (change_contact_present _ _ _ _ _ Hget).
    destruct Hfm as (Hsplit & Hp & Hbefore).
    assert (Record.edit_phone old new record
            = (ok tt, Record.set_phones (before ++ Phone.mk new :: after) record))
      as ->; [|done].
    unfold Record.edit_phone, bind. cbn. rewrite Hsplit at 1.
    rewrite edit_phone_from_found by done.
    rewrite (Phone_init_ok new Hnew). rewrite Hsplit. cbn.
    by rewrite <- (Nat.add_0_r (length before)), insert_app_r.
  - intros name old new -> Hget.
    unfold change_contact, input_error, change_contact_body.
    unfold bind at 1. unfold AddressBook.find at 1. by rewrite Hget.
  - destruct args as [|name [|old [|new [|x args]]]]; try by left.
    2: { left. unfold change_contact, input_error, change_contact_body, throw.
         by destruct (unpack_exact_error _ _). }
    destruct (dict.get book name) as [record|] eqn:Hget.
    + rewrite (change_contact_present _ _ _ _ _ Hget).
      destruct (Record.edit_phone old new record) as [[e|[]] record'];
        [by left|by right].
    + left. unfold change_contact, input_error, change_contact_body.
      unfold bind at 1. unfold AddressBook.find at 1. by rewrite Hget.
Qed.

Lemma change_contact_spec_witness :
  let ann := Record.mk (Name.mk (py "Ann"))
               [Phone.mk (py "1111111111"); Phone.mk (py "2222222222")] None in
  change_contact (rt:=excerpt_runtime)
    [py "Ann"; py "2222222222"; py "3333333333"] [(py "Ann", ann)]
  = (ok (py "Phone number updated."),
     [(py "Ann", Record.set_phones
                   [Phone.mk (py "1111111111"); Phone.mk (py "3333333333")] ann)]).
Proof.
  intros ann.
  assert (ten_digits (rt:=excerpt_runtime) (py "3333333333")) as Hnew.
  { split; [reflexivity|]. intros c Hc.
    apply (proj1 (forallb_elem_of char_isdigit (py "3333333333")));
      [reflexivity | exact Hc]. }
  assert (first_match (Record.phones ann) (py "2222222222")
            [Phone.mk (py "1111111111")] (Phone.mk (py "2222222222")) []) as Hfm.
  { split; [reflexivity|]. split; [reflexivity|].
    intros q Hq. apply list_elem_of_singleton in Hq. subst q. by vm_compute. }
  exact (proj1 (change_contact_spec (rt:=excerpt_runtime) [(py "Ann", ann)]
                  [py "Ann"; py "2222222222"; py "3333333333"])
           _ _ _ _ _ _ _ eq_refl eq_refl Hfm Hnew).
Defined.

(** ** Setting and showing a birthday *)

Lemma add_birthday_present {rt : Runtime} (book : AddressBook.t)
    (name bday : str) (record : Record.t) :
  dict.get book name = Some record →
  add_birthday [name; bday] book
  = match Birthday.__init__ bday with
    | inr b => (ok (py "Birthday is added"),
                dict.set name (Record.set_birthday (Some b) record) book)
    | inl e => (ok (py "Invalid date format. Use DD.MM.YYYY"), book)
    end.
Proof.
  intros Hget. unfold add_birthday, input_error, add_birthday_body.
  unfold bind, AddressBook.find, AddressBook.on_record, ret, ok,
    Record.add_birthday, lift, modify, bind.
  rewrite Hget. cbv beta iota.
  destruct (Birthday.__init__ bday) as [e|b] eqn:Hb; [|done].
  rewrite (dict_set_same _ _ _ Hget).
  revert Hb. unfold Birthday.__init__.
  destruct (strptime.parse_dmY bday) as [e'|dt] eqn:Hp; [|done].
  apply parse_dmY_error in Hp as [msg ->]. by intros [= <-].
Qed.

Lemma show_birthday_present {rt : Runtime} (book : AddressBook.t)
    (name : str) (more : list str) (record : Record.t) :
  dict.get book name = Some record →
  show_birthday (name :: more) book
  = (ok match Record.birthday record with
        | Some b => name ++ py " has birthday on "
                    ++ date.strftime_dmY (Birthday.value b)
        | None => py "No birthday"
        end, book).
Proof.
  intros Hget. unfold show_birthday, input_error, show_birthday_body.
  unfold bind, AddressBook.find, ret, ok. rewrite Hget. cbv beta iota.
  by destruct (Record.birthday record).
Qed.

(** X8. For a name that is in the book and the zero-padded text of a real
    date from year 1000 on, [add_birthday] answers "Birthday is added" and
    stores the date in that record, replacing a birthday that was there;
    [show_birthday] then answers with the name and the same text. *)
Theorem birthday_set_then_shown {rt : Runtime} (book : AddressBook.t)
    (name : str) (record : Record.t) (dt : date.t) :
  dict.get book name = Some record →
  date.valid dt → 1000 ≤ date.year dt →
  let book' :=
    dict.set name (Record.set_birthday (Some (Birthday.mk dt)) record) book in
  add_birthday [name; padded_dmY dt] book = (ok (py "Birthday is added"), book')
  ∧ show_birthday [name] book'
    = (ok (name ++ py " has birthday on " ++ padded_dmY dt), book').
Proof.
  intros Hget Hvalid Hyear book'. split.
  - rewrite (add_birthday_present _ _ _ _ Hget).
    assert (Birthday.__init__ (padded_dmY dt) = ok (Birthday.mk dt)) as ->; [|done].
    apply Birthday_init_ok. cbn. by apply spells_padded.
  - rewrite (show_birthday_present book' name []
               (Record.set_birthday (Some (Birthday.mk dt)) record))
      by apply dict_get_set_eq.
    unfold Record.set_birthday. cbn [Record.birthday Birthday.value].
    rewrite strftime_padded; [done|].
    unfold date.strftime_Y. by rewrite (proj2 (Z.ltb_ge _ _)) by lia.
Qed.

Lemma birthday_set_then_shown_witness :
  let ann := contact (py "Ann") (date.mk 1990 3 12) in
  let book' := [(py "Ann", contact (py "Ann") (date.mk 2001 12 31))] in
  add_birthday (rt:=excerpt_runtime) [py "Ann"; py "31.12.2001"] [(py "Ann", ann)]
  = (ok (py "Birthday is added"), book')
  ∧ show_birthday (rt:=excerpt_runtime) [py "Ann"] book'
    = (ok (py "Ann has birthday on 31.12.2001"), book').
Proof.
  intros ann book'.
  assert (date.valid (date.mk 2001 12 31)) as Hvalid by valid_date.
  exact (birthday_set_then_shown (rt:=excerpt_runtime) [(py "Ann", ann)]
           (py "Ann") ann (date.mk 2001 12 31) eq_refl Hvalid ltac:(cbn; lia)).
Defined.



(** ** Showing phones *)




(** ** Reading a command *)

Section ParseInput.
Context {tx : Text}.








End ParseInput.



Example parse_input_words :
  parse_input (tx:=excerpt_text) (py "  ADD   Ann	0123456789 ")
  = ok (py "add", [py "Ann"; py "0123456789"]).
Proof. reflexivity. Qed.

Example parse_input_blank :
  parse_input (tx:=excerpt_text) (py "   ") = raise index_error.
Proof. reflexivity. Qed.


(** ** The handlers keep the book well formed *)

Lemma input_error_answers {S} (func : M S str) (s : S) :
  ∃ text, input_error func s = (ok text, (func s).2).
Proof.
  unfold input_error. destruct (func s) as [[[]|text] s']; cbn; eauto.
Qed.

Lemma keys_are_names_set (book : AddressBook.t) (key : str) (r : Record.t) :
  keys_are_names book → Name.value (Record.name r) = key →
  keys_are_names (dict.set key r book).
Proof.
  intros Hbook <-. exact (keys_are_names_step book (op_add_record r) Hbook).
Qed.

Lemma keys_are_names_get (book : AddressBook.t) (key : str) (r : Record.t) :
  keys_are_names book → dict.get book key = Some r →
  Name.value (Record.name r) = key.
Proof. intros [Hkeys _] Hget%dict_get_elem_of. symmetry. by apply Hkeys. Qed.

Lemma add_phone_name {rt : Runtime} (p : str) (r : Record.t) :
  Record.name (Record.add_phone p r).2 = Record.name r.
Proof.
  unfold Record.add_phone, bind, lift, modify.
  by destruct (Phone.__init__ p).
Qed.

Lemma edit_phone_name {rt : Runtime} (old new : str) (r : Record.t) :
  Record.name (Record.edit_phone old new r).2 = Record.name r.
Proof.
  unfold Record.edit_phone, bind. cbn. generalize 0%nat.
  induction (Record.phones r) as [|p ps IH]; intros i; cbn; [done|].
  case_bool_decide; [|apply IH].
  unfold bind, lift, modify. by destruct (Phone.__init__ new).
Qed.

Lemma add_birthday_name {rt : Runtime} (bday : str) (r : Record.t) :
  Record.name (Record.add_birthday bday r).2 = Record.name r.
Proof.
  unfold Record.add_birthday, bind, lift, modify.
  by destruct (Birthday.__init__ bday).
Qed.

Lemma on_record_keys {A} (book : AddressBook.t) (key : str) (r : Record.t)
    (method : M Record.t A) :
  keys_are_names book → Name.value (Record.name r) = key →
  Record.name (method r).2 = Record.name r →
  keys_are_names (AddressBook.on_record key r method book).2.
Proof.
  intros Hbook Hkey Hname. unfold AddressBook.on_record.
  destruct (method r) as [res r'] eqn:Hm. cbn in *.
  apply keys_are_names_set; [done|]. by rewrite Hname.
Qed.

Lemma input_error_state {S} (func : M S str) (s : S) :
  (input_error func s).2 = (func s).2.
Proof. by destruct (input_error_answers func s) as [text ->]. Qed.

Section HandlersKeepKeys.
Context {rt : Runtime}.
Variable book : AddressBook.t.
Hypothesis Hbook : keys_are_names book.

Lemma add_contact_keys (args : list str) :
  keys_are_names (add_contact args book).2.
Proof.
  unfold add_contact. rewrite input_error_state. unfold add_contact_body.
  destruct args as [|name [|phone more]]; [done..|].
  unfold bind at 1. unfold AddressBook.find at 1. cbv beta iota.
  destruct (dict.get book name) as [record|] eqn:Hget.
  - unfold bind, ret, ok. cbv beta iota. case_bool_decide; [|done].
    pose proof (on_record_keys book name record (Record.add_phone phone) Hbook
                  (keys_are_names_get _ _ _ Hbook Hget) (add_phone_name _ _)) as Hk.
    by destruct (AddressBook.on_record _ _ _ _) as [[e|[]] book'].
  - unfold bind at 1. unfold bind at 1. unfold lift, Record.__init__, Name.__init__.
    case_bool_decide as Hname; [done|].
    unfold bind, AddressBook.add_record, modify, ret, ok. cbv beta iota.
    set (record := Record.mk (Name.mk name) [] None).
    assert (keys_are_names (dict.set name record book)) as Hbook'
      by by apply keys_are_names_set.
    cbn [Record.name Name.value]. case_bool_decide; [|done].
    pose proof (on_record_keys _ name record (Record.add_phone phone) Hbook'
                  eq_refl (add_phone_name _ _)) as Hk.
    by destruct (AddressBook.on_record _ _ _ _) as [[e|[]] book'].
Qed.

Lemma change_contact_keys (args : list str) :
  keys_are_names (change_contact args book).2.
Proof.
  unfold change_contact. rewrite input_error_state. unfold change_contact_body.
  destruct args as [|name [|old [|new [|x args]]]]; try done.
  unfold bind at 1. unfold AddressBook.find at 1. cbv beta iota.
  destruct (dict.get book name) as [record|] eqn:Hget; [|done].
  unfold bind, ret, ok.
  pose proof (on_record_keys book name record (Record.edit_phone old new) Hbook
                (keys_are_names_get _ _ _ Hbook Hget) (edit_phone_name _ _ _)) as Hk.
  by destruct (AddressBook.on_record _ _ _ _) as [[e|[]] book'].
Qed.

Lemma add_birthday_keys (args : list str) :
  keys_are_names (add_birthday args book).2.
Proof.
  unfold add_birthday. rewrite input_error_state. unfold add_birthday_body.
  destruct args as [|name [|bday [|x args]]]; try done.
  unfold bind at 1. unfold AddressBook.find at 1. cbv beta iota.
  destruct (dict.get book name) as [record|] eqn:Hget; [|done].
  unfold bind, ret, ok.
  pose proof (on_record_keys book name record (Record.add_birthday bday) Hbook
                (keys_are_names_get _ _ _ Hbook Hget) (add_birthday_name _ _)) as Hk.
  by destruct (AddressBook.on_record _ _ _ _) as [[e|[]] book'].
Qed.

Lemma show_phones_state (args : list str) : (show_phones args book).2 = book.
Proof.
  unfold show_phones. rewrite input_error_state. unfold show_phones_body.
  destruct args as [|name more]; [done|].
  unfold bind, AddressBook.find, ret, ok. cbv beta iota.
  by destruct (dict.get book name).
Qed.

Lemma show_birthday_state (args : list str) : (show_birthday args book).2 = book.
Proof.
  unfold show_birthday. rewrite input_error_state. unfold show_birthday_body.
  destruct args as [|name more]; [done|].
  unfold bind, AddressBook.find, ret, ok. cbv beta iota.
  destruct (dict.get book name) as [record|]; [|done].
  by destruct (Record.birthday record).
Qed.

Lemma birthdays_state (clock : datetime.t) (args : list str) :
  (birthdays clock args book).2 = book.
Proof.
  unfold birthdays. rewrite input_error_state. unfold birthdays_body. cbv zeta.
  destruct (birthdays_loop _ _ _); [done|]. by destruct (bool_decide _).
Qed.
End HandlersKeepKeys.

(** ** The command loop *)

(** What one command prints and the book it leaves, [None] for the two
    commands that end the loop. *)
Definition dispatch {rt : Runtime} (command : str) (args : list str)
    (clock : datetime.t) (book : AddressBook.t) : option (str * AddressBook.t) :=
  let answer (r : result str * AddressBook.t) : str * AddressBook.t :=
    (match r.1 with inr text => text | inl e => str_of_exn e end, r.2) in
  if bool_decide (command = py "close") || bool_decide (command = py "exit")
  then None
  else Some
    (if bool_decide (command = py "hello") then (py "How can I help you?", book)
     else if bool_decide (command = py "add") then answer (add_contact args book)
     else if bool_decide (command = py "change")
     then answer (change_contact args book)
     else if bool_decide (command = py "phone") then answer (show_phones args book)
     else if bool_decide (command = py "all") then (show_all book, book)
     else if bool_decide (command = py "add-birthday")
     then answer (add_birthday args book)
     else if bool_decide (command = py "show-birthday")
     then answer (show_birthday args book)
     else if bool_decide (command = py "birthdays")
     then answer (birthdays clock args book)
     else (py "Invalid command.", book)).

Section MainLoop.
Context {rt : Runtime} {tx : Text}.

(** One turn of the loop. *)
Lemma main_loop_turn (line : str) (clock : datetime.t)
    (later : list (str * datetime.t)) (book : AddressBook.t) :
  main_loop ((line, clock) :: later) book
  = match parse_input line with
    | inl e => ([prompt], Uncaught e, book)
    | inr (command, args) =>
        match dispatch command args clock book with
        | None => ([prompt; Print (py "Good bye!")], Finished, book)
        | Some (text, book') =>
            let '(events, stop, final) := main_loop later book' in
            (prompt :: Print text :: events, stop, final)
        end
    end.
Proof.
  cbn [main_loop]. destruct (parse_input line) as [e|[command args]]; [done|].
  unfold dispatch. cbv zeta.
  destruct (_ || _); [done|].
  repeat (destruct (bool_decide (command = _)); [
    first [ done
          | match goal with
            | |- context [let (_, _) := ?h in _] =>
                let text := fresh "text" in
                let b := fresh "b" in
                let Hanswer := fresh "Hanswer" in
                assert (∃ text b, h = (ok text, b)) as (text & b & Hanswer)
                  by (unfold add_contact, change_contact, show_phones,
                        add_birthday, show_birthday, birthdays;
                      match goal with
                      | |- ∃ _ _, input_error ?f ?s = _ =>
                          destruct (input_error_answers f s) as [? ->]; eauto
                      end);
                rewrite Hanswer; done
            end ] |]).
  done.
Qed.

Lemma dispatch_keys (command : str) (args : list str) (clock : datetime.t)
    (book : AddressBook.t) (text : str) (book' : AddressBook.t) :
  keys_are_names book →
  dispatch command args clock book = Some (text, book') →
  keys_are_names book'.
Proof.
  intros Hbook. unfold dispatch. cbv zeta. destruct (_ || _); [done|].
  repeat (destruct (bool_decide (command = _));
          [intros [= _ <-]; cbn [snd];
           lazymatch goal with
           | |- keys_are_names (add_contact _ _).2 =>
               apply add_contact_keys, Hbook
           | |- keys_are_names (change_contact _ _).2 =>
               apply change_contact_keys, Hbook
           | |- keys_are_names (add_birthday _ _).2 =>
               apply add_birthday_keys, Hbook
           | |- keys_are_names (show_phones _ _).2 =>
               rewrite show_phones_state; exact Hbook
           | |- keys_are_names (show_birthday _ _).2 =>
               rewrite show_birthday_state; exact Hbook
           | |- keys_are_names (birthdays _ _ _).2 =>
               rewrite birthdays_state; exact Hbook
           | |- _ => exact Hbook
           end |]).
  by intros [= _ <-].
Qed.

Lemma main_loop_keys (inputs : list (str * datetime.t)) :
  ∀ book, keys_are_names book → keys_are_names (main_loop inputs book).2.
Proof.
  induction inputs as [|[line clock] later IH]; intros book Hbook; [done|].
  rewrite main_loop_turn.
  destruct (parse_input line) as [e|[command args]]; [done|].
  destruct (dispatch command args clock book) as [[text book']|] eqn:Hd; [|done].
  pose proof (IH book' (dispatch_keys _ _ _ _ _ _ Hbook Hd)) as Hfinal.
  by destruct (main_loop later book') as [[events stop] final].
Qed.

End MainLoop.



(** X13. Whatever lines are typed, every key of the book that [main]
    works on is the name of the record stored under it and no name occurs
    twice, at the end of the session and so after every command; every
    handler keeps a book of that kind that way. *)
Theorem main_keeps_keys {rt : Runtime} {tx : Text}
    (inputs : list (str * datetime.t)) :
  keys_are_names (main inputs).2
  ∧ ∀ book args clock,
      keys_are_names book →
      keys_are_names (main_loop inputs book).2
      ∧ keys_are_names (add_contact args book).2
      ∧ keys_are_names (change_contact args book).2
      ∧ keys_are_names (add_birthday args book).2
      ∧ (show_phones args book).2 = book
      ∧ (show_birthday args book).2 = book
      ∧ (birthdays clock args book).2 = book.
Proof.
  split.
  - unfold main.
    pose proof (main_loop_keys inputs AddressBook.empty keys_are_names_empty).
    by destruct (main_loop inputs AddressBook.empty) as [[events stop] final].
  - intros book args clock Hbook.
    split; [by apply main_loop_keys|]. split; [by apply add_contact_keys|].
    split; [by apply change_contact_keys|]. split; [by apply add_birthday_keys|].
    split; [apply show_phones_state|]. split; [apply show_birthday_state|].
    apply birthdays_state.
Qed.

Lemma main_keeps_keys_witness :
  let ann := Record.mk (Name.mk (py "Ann")) [] None in
  keys_are_names
    (add_contact (rt:=excerpt_runtime) [py "Bob"; py "0123456789"]
       [(py "Ann", ann)]).2.
Proof.
  intros ann.
  assert (keys_are_names [(py "Ann", ann)]) as Hbook.
  { exact (keys_are_names_step [] (op_add_record ann) keys_are_names_empty). }
  exact (proj1 (proj2 (proj2 (main_keeps_keys (rt:=excerpt_runtime)
                                 (tx:=excerpt_text) [])
                          [(py "Ann", ann)] [py "Bob"; py "0123456789"]
                          (clock_on (date.mk 2024 3 10)) Hbook))).
Defined.

Example main_session :
  main (rt:=excerpt_runtime) (tx:=excerpt_text)
    [(py "add Ann 0123456789", clock_on (date.mk 2024 3 10));
     (py "add-birthday Ann 12.03.1990", clock_on (date.mk 2024 3 10));
     (py "BIRTHDAYS", clock_on (date.mk 2024 3 10));
     (py "all", clock_on (date.mk 2024 3 10));
     (py "what", clock_on (date.mk 2024 3 10));
     (py "close", clock_on (date.mk 2024 3 10))]
  = ([Print (py "Welcome to the assistant bot!");
      prompt; Print (py "Contact added.");
      prompt; Print (py "Birthday is added");
      prompt; Print (py "Ann: Tuesday (12.03.2024)");
      prompt; Print (py "Contact name: Ann, phones: 0123456789, birthday: 12.03.1990");
      prompt; Print (py "Invalid command.");
      prompt; Print (py "Good bye!")],
     Finished,
     [(py "Ann", Record.mk (Name.mk (py "Ann")) [Phone.mk (py "0123456789")]
                   (Some (Birthday.mk (date.mk 1990 3 12))))]).
Proof. reflexivity. Qed.

(** ** A birthday today *)

(** X14. When every birthday has a candidate that can be formed, a contact
    whose birthday falls on today's day and month is reported with
    today's date, so the answer is the list of lines and one of them is
    the line of that contact for today. *)
Theorem birthday_today_reported {rt : Runtime} (clock : datetime.t)
    (args : list str) (book : AddressBook.t) (r : Record.t) (b : Birthday.t) :
  let today := datetime.date clock in
  let records := AddressBook.values book in
  date.valid today →
  (∀ r b, r ∈ records → Record.birthday r = Some b →
          candidate_exists today (Birthday.value b)) →
  r ∈ records → Record.birthday r = Some b →
  date.month (Birthday.value b) = date.month today →
  date.day (Birthday.value b) = date.day today →
  (r, today) ∈ selected today records
  ∧ birthday_line r today ∈ birthday_lines (selected today records)
  ∧ birthdays clock args book
    = (ok (join [10%N] (birthday_lines (selected today records))), book).
Proof.
  intros today records Htoday Hex Hr Hb Hmonth Hday.
  assert ((r, today) ∈ selected today records) as Hsel.
  { apply elem_of_selected. split; [done|]. exists b. split; [done|].
    assert (candidate today (Birthday.value b) = today) as Hcand.
    { unfold candidate, with_year. cbv zeta. rewrite Hmonth, Hday.
      assert (date.mk (date.year today) (date.month today) (date.day today) = today)
        as -> by by destruct today.
      unfold date_ltb. by rewrite !Z.ltb_irrefl, !Z.eqb_refl. }
    rewrite Hcand. split; [done|]. unfold date.sub_days. lia. }
  split; [done|]. split.
  - unfold birthday_lines. apply list_elem_of_fmap.
    exists (r, today). by split.
  - rewrite (birthdays_selected clock args book Htoday Hex).
    fold today records. unfold birthdays_answer.
    destruct (selected today records); [by apply elem_of_nil in Hsel|done].
Qed.

Lemma birthday_today_reported_witness :
  let ann := contact (py "Ann") (date.mk 1990 3 10) in
  birthdays (rt:=excerpt_runtime) (clock_on (date.mk 2024 3 10)) []
    [(py "Ann", ann)]
  = (ok (py "Ann: Sunday (10.03.2024)"), [(py "Ann", ann)]).
Proof.
  intros ann.
  assert (date.valid (datetime.date (clock_on (date.mk 2024 3 10)))) as Htoday
    by valid_date.
  assert (∀ r b, r ∈ AddressBook.values [(py "Ann", ann)] →
                 Record.birthday r = Some b →
                 candidate_exists (datetime.date (clock_on (date.mk 2024 3 10)))
                   (Birthday.value b)) as Hex.
  { intros r b Hr Hb. apply list_elem_of_singleton in Hr as ->.
    injection Hb as <-. split; valid_date. }
  exact (proj2 (proj2 (birthday_today_reported (rt:=excerpt_runtime)
                         (clock_on (date.mk 2024 3 10)) [] [(py "Ann", ann)]
                         ann (Birthday.mk (date.mk 1990 3 10)) Htoday Hex
                         ltac:(left) eq_refl eq_refl eq_refl))).
Defined.

(** ** What the book can hold *)

(** A record as the constructors leave it: a name that is not empty,
    phones that pass the check of [Phone], a birthday that is a date of the
    calendar. *)
Definition record_ok {rt : Runtime} (r : Record.t) : Prop :=
  Name.value (Record.name r) ≠ []
  ∧ (∀ p, p ∈ Record.phones r → ten_digits (Phone.value p))
  ∧ (∀ b, Record.birthday r = Some b → date.valid (Birthday.value b)).

Definition book_ok {rt : Runtime} (book : AddressBook.t) : Prop :=
  ∀ key r, (key, r) ∈ book → record_ok r.

Lemma elem_of_insert_inv {A} (l : list A) (i : nat) (x y : A) :
  y ∈ <[i:=x]> l → y = x ∨ y ∈ l.
Proof.
  revert i. induction l as [|a l IH]; intros [|i]; cbn; try by right.
  - intros [->|?]%elem_of_cons; [by left|]. right. by right.
  - intros [->|Hy]%elem_of_cons; [right; left|].
    destruct (IH i Hy) as [?|?]; [by left|]. right. by right.
Qed.

Section RecordsStayOk.
Context {rt : Runtime}.

Lemma Phone_init_inv (p : str) (q : Phone.t) :
  Phone.__init__ p = inr q → q = Phone.mk p ∧ ten_digits p.
Proof.
  unfold Phone.__init__. destruct (isdigit p) eqn:Hd; [|done]. cbn.
  change 10 with (Z.of_nat 10). rewrite len_eq.
  case_bool_decide as Hlen; [|done]. cbn. intros [= <-]. split; [done|].
  split; [done|]. by apply isdigit_true in Hd as [_ ?].
Qed.

Lemma Birthday_init_inv (s : str) (b : Birthday.t) :
  Birthday.__init__ s = inr b → date.valid (Birthday.value b).
Proof.
  intros (d & m & y & _ & _ & _ & _ & Hnew)%Birthday_init_ok.
  by apply new_valid in Hnew as [_ ?].
Qed.

Lemma add_phone_record_ok (p : str) (r : Record.t) :
  record_ok r → record_ok (Record.add_phone p r).2.
Proof.
  intros (Hname & Hphones & Hbday). unfold Record.add_phone, bind, lift, modify.
  destruct (Phone.__init__ p) as [e|q] eqn:Hq; [done|].
  apply Phone_init_inv in Hq as [-> Hp]. cbn.
  split; [done|]. split; [|done].
  intros x [Hx|Hx]%elem_of_app; [auto|].
  by apply list_elem_of_singleton in Hx as ->.
Qed.

Lemma edit_phone_from_record_ok (old new : str) (r : Record.t)
    (todo : list Phone.t) :
  record_ok r → ∀ i, record_ok (Record.edit_phone_from i todo old new r).2.
Proof.
  intros (Hname & Hphones & Hbday).
  induction todo as [|p ps IH]; intros i; cbn; [done|].
  case_bool_decide; [|apply IH].
  unfold bind, lift, modify.
  destruct (Phone.__init__ new) as [e|q] eqn:Hq; [done|].
  apply Phone_init_inv in Hq as [-> Hnew]. cbn.
  split; [done|]. split; [|done].
  intros x [->|Hx]%elem_of_insert_inv; auto.
Qed.

Lemma edit_phone_record_ok (old new : str) (r : Record.t) :
  record_ok r → record_ok (Record.edit_phone old new r).2.
Proof.
  intros Hr. unfold Record.edit_phone, bind. cbn.
  by apply edit_phone_from_record_ok.
Qed.

Lemma add_birthday_record_ok (s : str) (r : Record.t) :
  record_ok r → record_ok (Record.add_birthday s r).2.
Proof.
  intros (Hname & Hphones & Hbday). unfold Record.add_birthday, bind, lift, modify.
  destruct (Birthday.__init__ s) as [e|b] eqn:Hb; [done|].
  apply Birthday_init_inv in Hb. cbn.
  split; [done|]. split; [done|]. by intros b' [= <-].
Qed.

Lemma book_ok_set (book : AddressBook.t) (key : str) (r : Record.t) :
  book_ok book → record_ok r → book_ok (dict.set key r book).
Proof.
  intros Hbook Hr k x [Hin|[_ ->]]%dict_set_elem_of; [by eapply Hbook|done].
Qed.

Lemma book_ok_get (book : AddressBook.t) (key : str) (r : Record.t) :
  book_ok book → dict.get book key = Some r → record_ok r.
Proof. intros Hbook Hget%dict_get_elem_of. by eapply Hbook. Qed.

Lemma on_record_book_ok {A} (book : AddressBook.t) (key : str) (r : Record.t)
    (method : M Record.t A) :
  book_ok book → record_ok (method r).2 →
  book_ok (AddressBook.on_record key r method book).2.
Proof.
  intros Hbook Hr. unfold AddressBook.on_record.
  destruct (method r) as [res r']. by apply book_ok_set.
Qed.

Variable book : AddressBook.t.
Hypothesis Hbook : book_ok book.

Lemma add_contact_book_ok (args : list str) : book_ok (add_contact args book).2.
Proof.
  unfold add_contact. rewrite input_error_state. unfold add_contact_body.
  destruct args as [|name [|phone more]]; [done..|].
  unfold bind at 1. unfold AddressBook.find at 1. cbv beta iota.
  destruct (dict.get book name) as [record|] eqn:Hget.
  - unfold bind, ret, ok. cbv beta iota. case_bool_decide; [|done].
    pose proof (on_record_book_ok book name record (Record.add_phone phone) Hbook
                  (add_phone_record_ok _ _ (book_ok_get _ _ _ Hbook Hget))) as Hk.
    by destruct (AddressBook.on_record _ _ _ _) as [[e|[]] book'].
  - unfold bind at 1. unfold bind at 1. unfold lift, Record.__init__, Name.__init__.
    case_bool_decide as Hname; [done|].
    unfold bind, AddressBook.add_record, modify, ret, ok. cbv beta iota.
    set (record := Record.mk (Name.mk name) [] None).
    assert (record_ok record) as Hrecord.
    { split; [done|]. split; [by intros p ?%elem_of_nil|done]. }
    assert (book_ok (dict.set name record book)) as Hbook'
      by by apply book_ok_set.
    cbn [Record.name Name.value]. case_bool_decide; [|done].
    pose proof (on_record_book_ok _ name record (Record.add_phone phone) Hbook'
                  (add_phone_record_ok _ _ Hrecord)) as Hk.
    by destruct (AddressBook.on_record _ _ _ _) as [[e|[]] book'].
Qed.

Lemma change_contact_book_ok (args : list str) :
  book_ok (change_contact args book).2.
Proof.
  unfold change_contact. rewrite input_error_state. unfold change_contact_body.
  destruct args as [|name [|old [|new [|x args]]]]; try done.
  unfold bind at 1. unfold AddressBook.find at 1. cbv beta iota.
  destruct (dict.get book name) as [record|] eqn:Hget; [|done].
  unfold bind, ret, ok.
  pose proof (on_record_book_ok book name record (Record.edit_phone old new) Hbook
                (edit_phone_record_ok _ _ _ (book_ok_get _ _ _ Hbook Hget))) as Hk.
  by destruct (AddressBook.on_record _ _ _ _) as [[e|[]] book'].
Qed.

Lemma add_birthday_book_ok (args : list str) :
  book_ok (add_birthday args book).2.
Proof.
  unfold add_birthday. rewrite input_error_state. unfold add_birthday_body.
  destruct args as [|name [|bday [|x args]]]; try done.
  unfold bind at 1. unfold AddressBook.find at 1. cbv beta iota.
  destruct (dict.get book name) as [record|] eqn:Hget; [|done].
  unfold bind, ret, ok.
  pose proof (on_record_book_ok book name record (Record.add_birthday bday) Hbook
                (add_birthday_record_ok _ _ (book_ok_get _ _ _ Hbook Hget))) as Hk.
  by destruct (AddressBook.on_record _ _ _ _) as [[e|[]] book'].
Qed.

Lemma dispatch_book_ok (command : str) (args : list str) (clock : datetime.t)
    (text : str) (book' : AddressBook.t) :
  dispatch command args clock book = Some (text, book') → book_ok book'.
Proof.
  unfold dispatch. cbv zeta. destruct (_ || _); [done|].
  repeat (destruct (bool_decide (command = _));
          [intros [= _ <-]; cbn [snd];
           lazymatch goal with
           | |- book_ok (add_contact _ _).2 => apply add_contact_book_ok
           | |- book_ok (change_contact _ _).2 => apply change_contact_book_ok
           | |- book_ok (add_birthday _ _).2 => apply add_birthday_book_ok
           | |- book_ok (show_phones _ _).2 =>
               rewrite show_phones_state; exact Hbook
           | |- book_ok (show_birthday _ _).2 =>
               rewrite show_birthday_state; exact Hbook
           | |- book_ok (birthdays _ _ _).2 =>
               rewrite birthdays_state; exact Hbook
           | |- _ => exact Hbook
           end |]).
  by intros [= _ <-].
Qed.
End RecordsStayOk.

Lemma main_loop_book_ok {rt : Runtime} {tx : Text}
    (inputs : list (str * datetime.t)) :
  ∀ book, book_ok book → book_ok (main_loop inputs book).2.
Proof.
  induction inputs as [|[line clock] later IH]; intros book Hbook; [done|].
  rewrite main_loop_turn.
  destruct (parse_input line) as [e|[command args]]; [done|].
  destruct (dispatch command args clock book) as [[text book']|] eqn:Hd; [|done].
  pose proof (IH book' (dispatch_book_ok _ Hbook _ _ _ _ _ Hd)) as Hfinal.
  by destruct (main_loop later book') as [[events stop] final].
Qed.

(** X15. Whatever lines are typed, every record of the book that [main]
    works on has a name that is not empty, only phones that pass the check
    of [Phone] (ten characters, all digits), and, if it has a birthday, a
    real calendar date; the three record methods that the handlers call
    keep a record of that kind that way, whether they raise or not. *)
Theorem main_keeps_records_valid {rt : Runtime} {tx : Text}
    (inputs : list (str * datetime.t)) :
  book_ok (main inputs).2
  ∧ ∀ r p old new bday,
      record_ok r →
      record_ok (Record.add_phone p r).2
      ∧ record_ok (Record.edit_phone old new r).2
      ∧ record_ok (Record.add_birthday bday r).2.
Proof.
  split.
  - unfold main.
    assert (book_ok AddressBook.empty) as H0 by by intros k r ?%elem_of_nil.
    pose proof (main_loop_book_ok inputs AddressBook.empty H0).
    by destruct (main_loop inputs AddressBook.empty) as [[events stop] final].
  - intros r p old new bday Hr.
    split; [by apply add_phone_record_ok|].
    split; [by apply edit_phone_record_ok|by apply add_birthday_record_ok].
Qed.

Lemma main_keeps_records_valid_witness :
  record_ok (rt:=excerpt_runtime)
    (Record.add_phone (rt:=excerpt_runtime) (py "0123456789")
       (Record.mk (Name.mk (py "Ann")) [] None)).2.
Proof.
  assert (record_ok (rt:=excerpt_runtime) (Record.mk (Name.mk (py "Ann")) [] None))
    as Hr.
  { split; [by vm_compute|]. split; [by intros p ?%elem_of_nil|done]. }
  exact (proj1 (proj2 (main_keeps_records_valid (rt:=excerpt_runtime)
                         (tx:=excerpt_text) [])
                  _ (py "0123456789") [] [] [] Hr)).
Defined.

(** ** Editing a phone and editing it back *)



